(** * Catalogue-and-lending core: Biblioteca (Semana 12) and Inventario (Semana 11)

    A shallow embedding of the two Python classes that make up the
    catalogue core, followed by the properties proved about them.

    Conventions of the embedding
    - A Python [str] is a Rocq [string]; every [ascii] stands for the code
      point of the same number, so the strings covered are those over code
      points 0..255 (Latin-1), which is enough for the Spanish text the
      programs handle.  The Unicode tables used by [str.lower], [str.strip]
      and [unicodedata.normalize('NFD', _)] are written out for that range.
    - A [dict] whose iteration order is observed ([libros], [_productos]) is
      an association list in insertion order; a [dict] or [set] that is only
      looked up ([usuarios], [prestamos], [user_ids], [_index_nombre]) is a
      [gmap] or [gset].
    - A method is a function from the state before the call to the pair of
      its outcome (returned value or raised exception) and the state after
      the call; the state after a [raise] is the state the object is left in. *)

From Stdlib Require Import Ascii String QArith Qcanon.
From stdpp Require Import gmap strings list fin_maps sorting.

Close Scope Qc_scope.
Close Scope Q_scope.
Open Scope string_scope.

(** ** Python strings over Latin-1 *)

Definition ord (c : ascii) : N := N_of_ascii c.
Definition chr (n : N) : ascii := ascii_of_N n.

Fixpoint str_map (f : ascii → ascii) (s : string) : string :=
  match s with
  | EmptyString => EmptyString
  | String c s' => String (f c) (str_map f s')
  end.

(** [str.lower] on one code point: A-Z and the Latin-1 capitals
    U+00C0..U+00DE (except the multiplication sign U+00D7) move up by 32. *)
Definition char_lower (c : ascii) : ascii :=
  let n := ord c in
  if ((65 <=? n) && (n <=? 90) ||
      (192 <=? n) && (n <=? 222) && negb (n =? 215))%N
  then chr (n + 32) else c.

Definition lower (s : string) : string := str_map char_lower s.

(** [str.isspace] on one code point: TAB..CR, FS..US, SPACE, NEL, NBSP. *)
Definition isspace (c : ascii) : bool :=
  let n := ord c in
  ((9 <=? n) && (n <=? 13) || (28 <=? n) && (n <=? 32) ||
   (n =? 133) || (n =? 160))%N.

Fixpoint lstrip (s : string) : string :=
  match s with
  | EmptyString => EmptyString
  | String c s' => if isspace c then lstrip s' else s
  end.

Fixpoint rstrip (s : string) : string :=
  match s with
  | EmptyString => EmptyString
  | String c s' =>
      match rstrip s' with
      | EmptyString => if isspace c then EmptyString else String c EmptyString
      | r => String c r
      end
  end.

(** [s.strip()] *)
Definition strip (s : string) : string := lstrip (rstrip s).

(** [q in s] for two strings: [q] occurs in [s] as a contiguous block. *)
Fixpoint str_in (q s : string) : bool :=
  String.prefix q s ||
  match s with
  | EmptyString => false
  | String _ s' => str_in q s'
  end.

(** Base letter that survives [normalize('NFD', c).encode('ascii','ignore')]
    for a code point above 127: the letters with a canonical decomposition
    keep their ASCII base, every other code point is dropped. *)
Definition nfd_base (n : N) : option ascii :=
  (if (192 <=? n) && (n <=? 197) then Some "A"%char
   else if n =? 199 then Some "C"%char
   else if (200 <=? n) && (n <=? 203) then Some "E"%char
   else if (204 <=? n) && (n <=? 207) then Some "I"%char
   else if n =? 209 then Some "N"%char
   else if (210 <=? n) && (n <=? 214) then Some "O"%char
   else if (217 <=? n) && (n <=? 220) then Some "U"%char
   else if n =? 221 then Some "Y"%char
   else if (224 <=? n) && (n <=? 229) then Some "a"%char
   else if n =? 231 then Some "c"%char
   else if (232 <=? n) && (n <=? 235) then Some "e"%char
   else if (236 <=? n) && (n <=? 239) then Some "i"%char
   else if n =? 241 then Some "n"%char
   else if (242 <=? n) && (n <=? 246) then Some "o"%char
   else if (249 <=? n) && (n <=? 252) then Some "u"%char
   else if (n =? 253) || (n =? 255) then Some "y"%char
   else None)%N.

(** [unicodedata.normalize('NFD', s).encode('ascii', 'ignore').decode('ascii')] *)
Fixpoint nfd_ascii (s : string) : string :=
  match s with
  | EmptyString => EmptyString
  | String c s' =>
      if (ord c <? 128)%N then String c (nfd_ascii s')
      else match nfd_base (ord c) with
           | Some b => String b (nfd_ascii s')
           | None => nfd_ascii s'
           end
  end.

(** [_norm] of the inventory module. *)
Definition _norm (s : string) : string := strip (lower (nfd_ascii s)).

(** ** Insertion-ordered dictionaries with string keys *)

Section odict.
Context {V : Type}.

(** [d.get(k)] *)
Fixpoint od_get (k : string) (d : list (string * V)) : option V :=
  match d with
  | [] => None
  | (k', v) :: d' => if decide (k = k') then Some v else od_get k d'
  end.

(** [k in d] *)
Definition od_mem (k : string) (d : list (string * V)) : bool :=
  match od_get k d with Some _ => true | None => false end.

(** [d[k] = v]: a present key keeps its place, a new key goes last. *)
Fixpoint od_set (k : string) (v : V) (d : list (string * V))
  : list (string * V) :=
  match d with
  | [] => [(k, v)]
  | (k', v') :: d' =>
      if decide (k = k') then (k, v) :: d' else (k', v') :: od_set k v d'
  end.

(** [del d[k]] / [d.pop(k)] on a present key. *)
Definition od_del (k : string) (d : list (string * V)) : list (string * V) :=
  filter (λ kv, kv.1 ≠ k) d.

(** [d.keys()] and [d.values()], in insertion order. *)
Definition od_keys (d : list (string * V)) : list string := d.*1.
Definition od_values (d : list (string * V)) : list V := d.*2.
End odict.

(** [l.remove(x)]: drops the first occurrence; [None] is the [ValueError]
    raised when there is none. *)
Fixpoint py_list_remove (x : string) (l : list string) : option (list string) :=
  match l with
  | [] => None
  | y :: l' =>
      if decide (x = y) then Some l'
      else match py_list_remove x l' with
           | Some r => Some (y :: r)
           | None => None
           end
  end.

(** [list.sort(key=...)] is a stable sort; the result of a stable sort is
    determined by the list and the order on keys, so it is given here by
    insertion from the right, which puts an element before the elements of
    equal key that followed it. [leb a b] reads "[a] may stand before [b]". *)
Section stable_sort.
Context {A : Type} (leb : A → A → bool).



(** Elements that the order does not separate from [a]: the ties of a sort. *)
Definition tied (a y : A) : Prop := leb a y = true ∧ leb y a = true.

#[global] Instance tied_dec a y : Decision (tied a y).
Proof. unfold tied. apply _. Defined.
End stable_sort.

(** ** Biblioteca: books, users and loans *)

Module Biblioteca.

(** [Libro]: frozen dataclass, [meta] is the pair (título, autor). *)
Record Libro := mkLibro {
  meta : string * string;
  categoria : string;
  isbn : string
}.

Definition titulo (l : Libro) : string := (meta l).1.
Definition autor (l : Libro) : string := (meta l).2.

(** [Usuario]: [prestados] is the list of ISBNs recorded on the user.  The
    list is held here by value: a user has a list of its own, as the default
    [field(default_factory=list)] gives one to every user.  Two users built
    on one list object, and a list that the caller changes after the
    registration, are outside this embedding. *)
Record Usuario := mkUsuario {
  nombre : string;
  user_id : string;
  prestados : list string
}.

(** The four attributes of a [Biblioteca] object. *)
Record t := mk {
  libros : list (string * Libro);
  user_ids : gset string;
  usuarios : gmap string Usuario;
  prestamos : gmap string string
}.

(** [Biblioteca()] *)
Definition init : t := mk [] ∅ ∅ ∅.

(** The exceptions of the class, one constructor per kind of [raise]:
    - [DuplicateKey]: the [ValueError] of [anadir_libro] and [registrar_usuario];
    - [NotFound]: the [KeyError] raised with a message for an unknown ISBN or user;
    - [ItemLoaned]: the [ValueError] of [quitar_libro];
    - [HolderHasLoans]: the [ValueError] of [dar_de_baja_usuario];
    - [AlreadyLoaned]: the [ValueError] of [prestar_libro], naming the holder;
    - [NotLoaned]: the [ValueError] of [devolver_libro];
    - [KeyError]: the bare [KeyError] of a failed [dict] subscript or
      [set.remove], carrying the missing key. *)
Inductive entity := Item | Holder.

Inductive error :=
| DuplicateKey (id : string)
| NotFound (what : entity)
| ItemLoaned
| HolderHasLoans
| AlreadyLoaned (actual : string)
| NotLoaned
| KeyError (key : string).

Inductive outcome (A : Type) :=
| Return (a : A)
| Raise (e : error).
Arguments Return {A} a.
Arguments Raise {A} e.

Definition anadir_libro (libro : Libro) (s : t) : outcome unit * t :=
  if od_mem (isbn libro) (libros s)
  then (Raise (DuplicateKey (isbn libro)), s)
  else (Return (),
        mk (od_set (isbn libro) libro (libros s))
           (user_ids s) (usuarios s) (prestamos s)).

Definition quitar_libro (isbn : string) (s : t) : outcome unit * t :=
  match prestamos s !! isbn with
  | Some _ => (Raise ItemLoaned, s)
  | None =>
      if od_mem isbn (libros s)
      then (Return (),
            mk (od_del isbn (libros s)) (user_ids s) (usuarios s) (prestamos s))
      else (Raise (NotFound Item), s)
  end.

(** The object given is the object stored; with every user owning its list
    (see [Usuario]) storing its value is the same. *)
Definition registrar_usuario (usuario : Usuario) (s : t) : outcome unit * t :=
  if decide (user_id usuario ∈ user_ids s)
  then (Raise (DuplicateKey (user_id usuario)), s)
  else (Return (),
        mk (libros s)
           ({[user_id usuario]} ∪ user_ids s)
           (<[user_id usuario := usuario]> (usuarios s))
           (prestamos s)).

(** [self.user_ids.remove(user_id)] raises a bare [KeyError] on a missing
    element; it runs before [del self.usuarios[user_id]]. *)
Definition dar_de_baja_usuario (user_id : string) (s : t) : outcome unit * t :=
  match usuarios s !! user_id with
  | None => (Raise (NotFound Holder), s)
  | Some u =>
      match prestados u with
      | _ :: _ => (Raise HolderHasLoans, s)
      | [] =>
          if decide (user_id ∈ user_ids s)
          then (Return (),
                mk (libros s) (user_ids s ∖ {[user_id]})
                   (delete user_id (usuarios s)) (prestamos s))
          else (Raise (KeyError user_id), s)
      end
  end.

(** [u.prestados.append(isbn)] *)
Definition append_prestado (isbn : string) (u : Usuario) : Usuario :=
  mkUsuario (nombre u) (user_id u) (prestados u ++ [isbn]).

Definition prestar_libro (isbn user_id : string) (s : t) : outcome unit * t :=
  if od_mem isbn (libros s) then
    match usuarios s !! user_id with
    | None => (Raise (NotFound Holder), s)
    | Some u =>
        match prestamos s !! isbn with
        | Some actual => (Raise (AlreadyLoaned actual), s)
        | None =>
            (Return (),
             mk (libros s) (user_ids s)
                (<[user_id := append_prestado isbn u]> (usuarios s))
                (<[isbn := user_id]> (prestamos s)))
        end
    end
  else (Raise (NotFound Item), s).

(** [try: u.prestados.remove(isbn) except ValueError: pass] *)
Definition remove_prestado (isbn : string) (u : Usuario) : Usuario :=
  match py_list_remove isbn (prestados u) with
  | Some l => mkUsuario (nombre u) (user_id u) l
  | None => u
  end.

(** The entry is popped from [prestamos] before [self.usuarios[user_id]]
    is evaluated, so a [KeyError] from that subscript leaves the entry gone. *)
Definition devolver_libro (isbn : string) (s : t) : outcome unit * t :=
  match prestamos s !! isbn with
  | None => (Raise NotLoaned, s)
  | Some user_id =>
      let s1 := mk (libros s) (user_ids s) (usuarios s)
                   (delete isbn (prestamos s)) in
      match usuarios s1 !! user_id with
      | None => (Raise (KeyError user_id), s1)
      | Some u =>
          (Return (),
           mk (libros s1) (user_ids s1)
              (<[user_id := remove_prestado isbn u]> (usuarios s1))
              (prestamos s1))
      end
  end.

(** [(x or "").strip().lower()] for an optional criterion. *)
Definition query (x : option string) : string :=
  lower (strip (default "" x)).

(** The inner [match] of [buscar_libros]; an empty query is falsy. *)
Definition criterion (q field : string) : bool :=
  if decide (q = "") then true else str_in q (lower field).

Definition matches (q_tit q_aut q_cat : string) (lib : Libro) : bool :=
  criterion q_tit (titulo lib) && criterion q_aut (autor lib) &&
  criterion q_cat (categoria lib).

Definition buscar_libros (titulo autor categoria : option string) (s : t)
  : list Libro :=
  let q_tit := query titulo in
  let q_aut := query autor in
  let q_cat := query categoria in
  filter (λ lib, matches q_tit q_aut q_cat lib = true) (od_values (libros s)).

Definition libros_prestados_de (user_id : string) (s : t)
  : outcome (list Libro) :=
  match usuarios s !! user_id with
  | None => Raise (NotFound Holder)
  | Some u => Return (omap (λ i, od_get i (libros s)) (prestados u))
  end.

Definition disponible (isbn : string) (s : t) : outcome bool :=
  if od_mem isbn (libros s)
  then Return (bool_decide (prestamos s !! isbn = None))
  else Raise (NotFound Item).

(** The three counts printed by [resumen]. *)
Definition resumen (s : t) : nat * nat * nat :=
  (length (libros s), size (usuarios s), size (prestamos s)).

(** The mutating methods as requests, and the states a service goes
    through when it starts from [Biblioteca()] and receives requests; the
    state after a call that raised counts as well. *)
Inductive op :=
| AnadirLibro (libro : Libro)
| QuitarLibro (isbn : string)
| RegistrarUsuario (usuario : Usuario)
| DarDeBajaUsuario (user_id : string)
| PrestarLibro (isbn user_id : string)
| DevolverLibro (isbn : string).

Definition call (o : op) (s : t) : outcome unit * t :=
  match o with
  | AnadirLibro libro => anadir_libro libro s
  | QuitarLibro isbn => quitar_libro isbn s
  | RegistrarUsuario usuario => registrar_usuario usuario s
  | DarDeBajaUsuario user_id => dar_de_baja_usuario user_id s
  | PrestarLibro isbn user_id => prestar_libro isbn user_id s
  | DevolverLibro isbn => devolver_libro isbn s
  end.

Definition run (ops : list op) (s : t) : t :=
  foldl (λ s o, (call o s).2) s ops.

Inductive reachable : t → Prop :=
| reachable_init : reachable init
| reachable_call o s : reachable s → reachable (call o s).2.

(** A request that registers a user built with the default [prestados]:
    an empty list of its own. *)
Definition fresh_holder (o : op) : Prop :=
  match o with
  | RegistrarUsuario usuario => prestados usuario = []
  | _ => True
  end.

(** Every loan names a registered user: the codomain of the loan mapping
    lies within the registered users. *)
Definition loans_name_holders (s : t) : Prop :=
  ∀ i h, prestamos s !! i = Some h → is_Some (usuarios s !! h).

(** The attributes fit together: the id set is the key set of [usuarios],
    every loan names a registered holder whose list has the ISBN, and
    only catalogued books are on loan. *)
Definition consistent (s : t) : Prop :=
  user_ids s = dom (usuarios s) ∧
  (∀ i h, prestamos s !! i = Some h →
          ∃ u, usuarios s !! h = Some u ∧ i ∈ prestados u) ∧
  (∀ i, is_Some (prestamos s !! i) → od_mem i (libros s) = true).

(** The list recorded on every registered holder has exactly the ISBNs
    that the loan mapping assigns to that holder, each once. *)
Definition held_agrees (s : t) : Prop :=
  ∀ h u, usuarios s !! h = Some u →
    NoDup (prestados u) ∧
    ∀ i, i ∈ prestados u ↔ prestamos s !! i = Some h.

(** The objects of the demonstration at the end of the module, and the
    library after its first two steps (two users, three books). *)
Definition u1 : Usuario := mkUsuario ("Marlon " ++ String "193" "vila") "U001" [].
Definition u2 : Usuario := mkUsuario "Valentina Ruiz" "U002" [].
Definition l1 : Libro :=
  mkLibro ("Python Crash Course", "Eric Matthes")
          ("Programaci" ++ String "243" "n") "9781593279288".
Definition l2 : Libro :=
  mkLibro ("Cien a" ++ String "241" "os de soledad",
           "Gabriel Garc" ++ String "237" "a M" ++ String "225" "rquez")
          "Novela" "9780307474728".
Definition l3 : Libro :=
  mkLibro ("Clean Code", "Robert C. Martin")
          ("Ingenier" ++ String "237" "a") "9780132350884".
Definition demo_ops : list op :=
  [RegistrarUsuario u1; RegistrarUsuario u2;
   AnadirLibro l1; AnadirLibro l2; AnadirLibro l3].
Definition demo : t := run demo_ops init.

End Biblioteca.

(** ** Inventario: products and the index by normalised name *)

Module Inventario.

(** [Producto] as built by its constructor (the property setters validate
    and strip the fields at construction, before any method below runs).
    [cantidad] is a Python [int]; [precio] is a [float], taken here at its
    rational value (finite, not NaN) so that the order is the usual one.
    The setter of [precio] refuses what is below zero and so lets NaN and
    infinity through; a product of such a price is none of this record,
    and nothing below says how [listar_todos] orders it under "precio". *)
Record Producto := mkProducto {
  pid : string;
  nombre : string;
  cantidad : Z;
  precio : Qc
}.

Record t := mk {
  _productos : list (string * Producto);
  _index_nombre : gmap string (gset string)
}.

(** [Inventario()] *)
Definition init : t := mk [] ∅.

(** [DuplicateKey] and [NotFound] are the [KeyError]s raised with a message
    by [agregar] and by [eliminar]/[obtener]; [KeyError] is the bare one of
    a failed subscript. *)
Inductive error :=
| DuplicateKey (pid : string)
| NotFound (pid : string)
| KeyError (key : string).

Inductive outcome (A : Type) :=
| Return (a : A)
| Raise (e : error).
Arguments Return {A} a.
Arguments Raise {A} e.

(** [self._index_nombre.setdefault(key, set()).add(p.pid)] *)
Definition _index_add (p : Producto) (index : gmap string (gset string))
  : gmap string (gset string) :=
  let key := _norm (nombre p) in
  <[key := default ∅ (index !! key) ∪ {[pid p]}]> index.

(** [if ids:] is false for a missing key and for an empty set. *)
Definition _index_remove (p : Producto) (index : gmap string (gset string))
  : gmap string (gset string) :=
  let key := _norm (nombre p) in
  match index !! key with
  | None => index
  | Some ids =>
      if decide (ids = ∅) then index
      else
        let ids' := ids ∖ {[pid p]} in
        if decide (ids' = ∅) then delete key index
        else <[key := ids']> index
  end.

Definition agregar (p : Producto) (s : t) : outcome unit * t :=
  if od_mem (pid p) (_productos s)
  then (Raise (DuplicateKey (pid p)), s)
  else (Return (),
        mk (od_set (pid p) p (_productos s)) (_index_add p (_index_nombre s))).

Definition eliminar (pid : string) (s : t) : outcome Producto * t :=
  match od_get pid (_productos s) with
  | None => (Raise (NotFound pid), s)
  | Some p =>
      (Return p,
       mk (od_del pid (_productos s)) (_index_remove p (_index_nombre s)))
  end.

Definition obtener (pid : string) (s : t) : outcome Producto :=
  match od_get pid (_productos s) with
  | None => Raise (NotFound pid)
  | Some p => Return p
  end.

(** [[self._productos[i] for i in ids]] over the ids in the order given. *)
Fixpoint subscripts (ids : list string) (d : list (string * Producto))
  : outcome (list Producto) :=
  match ids with
  | [] => Return []
  | i :: ids' =>
      match od_get i d with
      | None => Raise (KeyError i)
      | Some p =>
          match subscripts ids' d with
          | Return ps => Return (p :: ps)
          | Raise e => Raise e
          end
      end
  end.

(** The order in which a Python [set] of strings is iterated depends on the
    hashes of its elements and is not fixed by the language; it is the
    parameter [iter], which lists the elements of the set in some order. *)
Definition buscar_por_nombre (iter : gset string → list string)
    (consulta : string) (s : t) : outcome (list Producto) :=
  let q := _norm consulta in
  match _index_nombre s !! q with
  | Some ids => subscripts (iter ids) (_productos s)
  | None =>
      Return (filter (λ p, str_in q (_norm (nombre p)) = true)
                     (od_values (_productos s)))
  end.





(** An id sits in a bucket of the index. *)
Definition indexed (index : gmap string (gset string)) (key i : string) : Prop :=
  ∃ ids, index !! key = Some ids ∧ i ∈ ids.

(** The index agrees with the store: a product is stored under its own
    [pid], an id sits in a bucket exactly when the product of that id is
    stored and the bucket is the one of its normalised name, and no bucket
    is empty. *)
Definition index_ok (s : t) : Prop :=
  (∀ k p, od_get k (_productos s) = Some p → pid p = k) ∧
  (∀ key i,
     indexed (_index_nombre s) key i ↔
     (∃ p, od_get i (_productos s) = Some p ∧ _norm (nombre p) = key)) ∧
  (∀ key, _index_nombre s !! key ≠ Some ∅).

(** Sample products: [pan] and [cafe] have the same quantity. *)
Definition pan : Producto := mkProducto "P2" "Pan" 5 (Q2Qc (1 # 1)).
Definition cafe : Producto := mkProducto "P1" ("Caf" ++ String "233" "") 5 (Q2Qc (3 # 1)).
Definition arroz : Producto := mkProducto "P3" "Arroz" 9 (Q2Qc (2 # 1)).
Definition tienda : t := (agregar arroz (agregar cafe (agregar pan init).2).2).2.

End Inventario.

(** ** Inventario: validated products and updates in place *)

Module InventarioUpdates.
Import Inventario.

(** The field whose property setter raised. *)
Inductive campo := Pid | Nombre | Cantidad | Precio.

(** [ValueError] is the exception of a property setter; [Inv] is an
    exception of the inventory methods above. *)
Inductive exn :=
| ValueError (c : campo)
| Inv (e : error).

Inductive result (A : Type) :=
| Ok (a : A)
| Err (e : exn).
Arguments Ok {A} a.
Arguments Err {A} e.

#[global] Instance result_bind : MBind result :=
  λ A B f m, match m with Ok a => f a | Err e => Err e end.

(** The setters of [pid] and [nombre]: an empty string is refused, any
    other is stored stripped (a blank one is stored as the empty string). *)
Definition set_pid (value : string) : result string :=
  if decide (value = "") then Err (ValueError Pid) else Ok (strip value).

Definition set_nombre (value : string) : result string :=
  if decide (value = "") then Err (ValueError Nombre) else Ok (strip value).

(** The setters of [cantidad] and [precio], for a value that is a number. *)
Definition set_cantidad (value : Z) : result Z :=
  if (value <? 0)%Z then Err (ValueError Cantidad) else Ok value.

Definition set_precio (value : Qc) : result Qc :=
  if decide (value < 0)%Qc then Err (ValueError Precio) else Ok value.

(** The generated [__init__] assigns the four fields in order, each through
    its setter. *)
Definition __init__ (pid nombre : string) (cantidad : Z) (precio : Qc)
  : result Producto :=
  p ← set_pid pid;
  n ← set_nombre nombre;
  c ← set_cantidad cantidad;
  r ← set_precio precio;
  Ok (mkProducto p n c r).

(** [__post_init__] assigns every field to itself, through the setter again. *)
Definition __post_init__ (self : Producto) : result Producto :=
  p ← set_pid (pid self);
  n ← set_nombre (nombre self);
  c ← set_cantidad (cantidad self);
  r ← set_precio (precio self);
  Ok (mkProducto p n c r).

(** [Producto(pid, nombre, cantidad, precio)] *)
Definition new_Producto (pid nombre : string) (cantidad : Z) (precio : Qc)
  : result Producto :=
  self ← __init__ pid nombre cantidad precio;
  __post_init__ self.

(** A product as the constructor builds it. *)
Definition valid (p : Producto) : Prop :=
  strip (pid p) = pid p ∧ pid p ≠ "" ∧
  strip (nombre p) = nombre p ∧ nombre p ≠ "" ∧
  (0 ≤ cantidad p)%Z ∧ (0 ≤ precio p)%Qc.

(** The stored object is changed in place: it keeps its key and its place
    in the dictionary. *)
Definition actualizar_cantidad (pid : string) (nueva_cantidad : Z) (s : t)
  : result unit * t :=
  match od_get pid (_productos s) with
  | None => (Err (Inv (NotFound pid)), s)
  | Some p =>
      match set_cantidad nueva_cantidad with
      | Err e => (Err e, s)
      | Ok c =>
          (Ok (),
           mk (od_set pid (mkProducto (Inventario.pid p) (nombre p) c (precio p))
                      (_productos s))
              (_index_nombre s))
      end
  end.

Definition actualizar_precio (pid : string) (nuevo_precio : Qc) (s : t)
  : result unit * t :=
  match od_get pid (_productos s) with
  | None => (Err (Inv (NotFound pid)), s)
  | Some p =>
      match set_precio nuevo_precio with
      | Err e => (Err e, s)
      | Ok r =>
          (Ok (),
           mk (od_set pid (mkProducto (Inventario.pid p) (nombre p) (cantidad p) r)
                      (_productos s))
              (_index_nombre s))
      end
  end.

(** [_index_update_nombre(p, nombre_anterior)] on the index, [p] being the
    product after its name was set: the pseudo product is built by the
    constructor, which may raise before the index is touched. *)
Definition _index_update_nombre (p : Producto) (nombre_anterior : string)
    (index : gmap string (gset string))
  : result (gmap string (gset string)) :=
  if decide (_norm nombre_anterior = _norm (nombre p)) then Ok index
  else
    pseudo ← new_Producto (pid p) nombre_anterior (cantidad p) (precio p);
    Ok (_index_add p (_index_remove pseudo index)).

(** [p.nombre = nuevo_nombre] happens before the index is updated, so the
    state after an exception of [_index_update_nombre] has the new name. *)
Definition actualizar_nombre (pid nuevo_nombre : string) (s : t)
  : result unit * t :=
  match od_get pid (_productos s) with
  | None => (Err (Inv (NotFound pid)), s)
  | Some p =>
      let nombre_prev := nombre p in
      match set_nombre nuevo_nombre with
      | Err e => (Err e, s)
      | Ok n =>
          let p' := mkProducto (Inventario.pid p) n (cantidad p) (precio p) in
          let productos := od_set pid p' (_productos s) in
          match _index_update_nombre p' nombre_prev (_index_nombre s) with
          | Err e => (Err e, mk productos (_index_nombre s))
          | Ok index => (Ok (), mk productos index)
          end
      end
  end.

End InventarioUpdates.

(** Additions, removals and updates of quantity and price as requests, and
    the inventory after a sequence of them, raising requests included. *)
Module InventarioOps.
Import Inventario InventarioUpdates.

Inductive op :=
| Agregar (p : Producto)
| Eliminar (pid : string)
| ActualizarCantidad (pid : string) (nueva_cantidad : Z)
| ActualizarPrecio (pid : string) (nuevo_precio : Qc).

Definition call (o : op) (s : t) : t :=
  match o with
  | Agregar p => (agregar p s).2
  | Eliminar pid => (eliminar pid s).2
  | ActualizarCantidad pid n => (actualizar_cantidad pid n s).2
  | ActualizarPrecio pid r => (actualizar_precio pid r s).2
  end.

Definition run (ops : list op) (s : t) : t := foldl (λ s o, call o s) s ops.

End InventarioOps.

(** ** Predicates on strings and on the catalogue *)

(** Every character of a string satisfies [P]. *)
Fixpoint str_Forall (P : ascii → Prop) (s : string) : Prop :=
  match s with
  | EmptyString => True
  | String c s' => P c ∧ str_Forall P s'
  end.

(** A code point below 128 that [str.lower] leaves alone. *)
Definition ascii_lowered (c : ascii) : Prop :=
  (ord c <? 128)%N = true ∧ char_lower c = c.

(** The books are stored once per ISBN, each under its own ISBN. *)
Definition keyed (s : Biblioteca.t) : Prop :=
  NoDup (od_keys (Biblioteca.libros s)) ∧
  ∀ k lib, (k, lib) ∈ Biblioteca.libros s → Biblioteca.isbn lib = k.

(** * Properties *)

(** ** Ordered dictionaries *)

Section odict_facts.
Context {V : Type}.
Implicit Types (k : string) (v : V) (d : list (string * V)).

Lemma od_mem_true k d : od_mem k d = true ↔ is_Some (od_get k d).
Proof.
  unfold od_mem. destruct (od_get k d); split; intros H; eauto.
  - discriminate.
  - by destruct H.
Qed.

Lemma od_mem_false k d : od_mem k d = false ↔ od_get k d = None.
Proof. unfold od_mem. destruct (od_get k d); split; intros H; done. Qed.

Lemma od_get_set_eq k v d : od_get k (od_set k v d) = Some v.
Proof.
  induction d as [|[k' v'] d IH]; simpl.
  - by rewrite decide_True.
  - destruct (decide (k = k')) as [->|Hne]; simpl.
    + by rewrite decide_True.
    + by rewrite decide_False.
Qed.

Lemma od_get_set_ne k k' v d : k ≠ k' → od_get k' (od_set k v d) = od_get k' d.
Proof.
  intros Hne. induction d as [|[k0 v0] d IH]; simpl.
  - by rewrite decide_False.
  - destruct (decide (k = k0)) as [->|Hne0]; simpl.
    + by rewrite !decide_False.
    + destruct (decide (k' = k0)); done.
Qed.

Lemma od_get_del_eq k d : od_get k (od_del k d) = None.
Proof.
  unfold od_del. induction d as [|[k0 v0] d IH]; [done|].
  rewrite filter_cons. simpl. case_decide; [|done].
  simpl. by rewrite decide_False.
Qed.

Lemma od_get_del_ne k k' d : k ≠ k' → od_get k' (od_del k d) = od_get k' d.
Proof.
  intros Hne. unfold od_del. induction d as [|[k0 v0] d IH]; [done|].
  rewrite filter_cons. simpl. case_decide; simpl.
  - by rewrite IH.
  - subst k0. by rewrite decide_False.
Qed.


Lemma od_set_fresh k v d : od_get k d = None → od_set k v d = (d ++ [(k, v)])%list.
Proof.
  induction d as [|[k0 v0] d IH]; [done|]. simpl.
  case_decide; [done|]. intros Hd. by rewrite IH.
Qed.


End odict_facts.

(** ** [list.remove] *)

Lemma py_list_remove_None x l : py_list_remove x l = None ↔ x ∉ l.
Proof.
  induction l as [|y l IH]; simpl.
  - split; [intros _; apply not_elem_of_nil|done].
  - rewrite not_elem_of_cons. case_decide.
    + split; [done|]. intros [? _]. done.
    + destruct (py_list_remove x l); split.
      * done.
      * intros [_ Hx]. by apply IH in Hx.
      * intros _. split; [done|]. by apply IH.
      * done.
Qed.

Lemma py_list_remove_other x y l l' :
  py_list_remove x l = Some l' → y ≠ x → y ∈ l' ↔ y ∈ l.
Proof.
  revert l'. induction l as [|z l IH]; intros l'; simpl; [done|].
  case_decide.
  - intros [= ->] Hne. subst z. rewrite elem_of_cons. naive_solver.
  - destruct (py_list_remove x l) as [r|]; [|done].
    intros [= <-] Hne. rewrite !elem_of_cons, (IH r) by done. done.
Qed.

Lemma py_list_remove_NoDup x l l' :
  py_list_remove x l = Some l' → NoDup l → (x ∉ l') ∧ NoDup l'.
Proof.
  revert l'. induction l as [|z l IH]; intros l'; simpl; [done|].
  rewrite NoDup_cons. case_decide.
  - intros [= ->] [Hz Hl]. by subst z.
  - destruct (py_list_remove x l) as [r|] eqn:Hr; [|done].
    intros [= <-] [Hz Hl]. destruct (IH r eq_refl Hl) as [Hx Hnd].
    rewrite not_elem_of_cons, NoDup_cons. split_and!; try done.
    intros Hzr. apply Hz. by apply (py_list_remove_other x z l r).
Qed.

(** ** Biblioteca *)

Module BibliotecaFacts.
Import Biblioteca.

Lemma consistent_init : consistent init.
Proof.
  split_and!; simpl.
  - by rewrite dom_empty_L.
  - intros i h Hi. by rewrite lookup_empty in Hi.
  - intros i [h Hi]. by rewrite lookup_empty in Hi.
Qed.

Lemma remove_prestado_other isbn u i :
  i ≠ isbn → i ∈ prestados (remove_prestado isbn u) ↔ i ∈ prestados u.
Proof.
  intros Hne. unfold remove_prestado.
  destruct (py_list_remove isbn (prestados u)) as [l|] eqn:Hl; [|done].
  simpl. by apply (py_list_remove_other isbn).
Qed.

Lemma consistent_call o s : consistent s → consistent (call o s).2.
Proof.
  intros (Hids & Hloan & Hcat).
  destruct o as [libro|isbn|usuario|uid|isbn uid|isbn]; simpl.
  - (* anadir_libro *)
    unfold anadir_libro. destruct (od_mem _ _) eqn:Hm; [done|].
    split_and!; simpl; [done..|].
    intros i Hi. apply Hcat in Hi. apply od_mem_true in Hi.
    apply od_mem_true. destruct (decide (isbn libro = i)) as [<-|Hne].
    + rewrite od_get_set_eq. eauto.
    + by rewrite od_get_set_ne.
  - (* quitar_libro *)
    unfold quitar_libro. destruct (prestamos s !! isbn) eqn:Hp; [done|].
    destruct (od_mem _ _) eqn:Hm; [|done].
    split_and!; simpl; [done..|].
    intros i Hi. assert (isbn ≠ i) by (intros ->; rewrite Hp in Hi; by destruct Hi).
    apply Hcat in Hi. apply od_mem_true in Hi.
    apply od_mem_true. by rewrite od_get_del_ne.
  - (* registrar_usuario *)
    unfold registrar_usuario. case_decide as Hin; [done|].
    split_and!; simpl; [|intros i h Hi|done].
    + rewrite dom_insert_L. by rewrite Hids.
    + destruct (Hloan i h Hi) as (u & Hu & Hiu).
      exists u. split; [|done]. rewrite lookup_insert_ne; [done|].
      intros <-. apply Hin. rewrite Hids. apply elem_of_dom. eauto.
  - (* dar_de_baja_usuario *)
    unfold dar_de_baja_usuario. destruct (usuarios s !! uid) as [u|] eqn:Hu; [|done].
    destruct (prestados u) eqn:Hpu; [|done].
    case_decide; [|done].
    split_and!; simpl; [|intros i h Hi|done].
    + rewrite dom_delete_L. by rewrite Hids.
    + destruct (Hloan i h Hi) as (u' & Hu' & Hiu).
      exists u'. split; [|done]. rewrite lookup_delete_ne; [done|].
      intros <-. rewrite Hu in Hu'. injection Hu' as <-.
      rewrite Hpu in Hiu. by apply elem_of_nil in Hiu.
  - (* prestar_libro *)
    unfold prestar_libro. destruct (od_mem _ _) eqn:Hm; [|done].
    destruct (usuarios s !! uid) as [u|] eqn:Hu; [|done].
    destruct (prestamos s !! isbn) eqn:Hp; [done|].
    split_and!; simpl.
    + rewrite dom_insert_L, Hids. apply elem_of_dom_2 in Hu. set_solver.
    + intros i h. destruct (decide (isbn = i)) as [<-|Hne].
      * rewrite lookup_insert_eq. intros [= <-]. rewrite lookup_insert_eq.
        eexists. split; [done|]. simpl. set_solver.
      * rewrite lookup_insert_ne by done. intros Hi.
        destruct (Hloan i h Hi) as (u' & Hu' & Hiu).
        destruct (decide (uid = h)) as [<-|Hneh].
        -- rewrite lookup_insert_eq. eexists. split; [done|]. simpl.
           rewrite Hu in Hu'. injection Hu' as <-. set_solver.
        -- rewrite lookup_insert_ne by done. eauto.
    + intros i. destruct (decide (isbn = i)) as [<-|Hne]; [done|].
      rewrite lookup_insert_ne by done. apply Hcat.
  - (* devolver_libro *)
    unfold devolver_libro. destruct (prestamos s !! isbn) as [uid|] eqn:Hp; [|done].
    simpl. destruct (Hloan isbn uid Hp) as (u & Hu & Hiu). rewrite Hu. simpl.
    split_and!; simpl.
    + rewrite dom_insert_L, Hids. apply elem_of_dom_2 in Hu. set_solver.
    + intros i h. destruct (decide (isbn = i)) as [<-|Hne].
      * by rewrite lookup_delete_eq.
      * rewrite lookup_delete_ne by done. intros Hi.
        destruct (Hloan i h Hi) as (u' & Hu' & Hiu').
        destruct (decide (uid = h)) as [<-|Hneh].
        -- rewrite lookup_insert_eq. eexists. split; [done|].
           rewrite Hu in Hu'. injection Hu' as <-.
           by apply remove_prestado_other.
        -- rewrite lookup_insert_ne by done. eauto.
    + intros i. destruct (decide (isbn = i)) as [<-|Hne].
      * rewrite lookup_delete_eq. by intros [? ?].
      * rewrite lookup_delete_ne by done. apply Hcat.
Qed.

Lemma reachable_consistent s : reachable s → consistent s.
Proof.
  induction 1 as [|o s _ IH]; [apply consistent_init|by apply consistent_call].
Qed.

Lemma reachable_run ops : reachable (run ops init).
Proof.
  unfold run. generalize init reachable_init.
  induction ops as [|o ops IH]; intros s Hs; simpl; [done|].
  apply IH. by constructor.
Qed.


Lemma held_agrees_init : held_agrees init.
Proof. intros h u Hu. simpl in Hu. by rewrite lookup_empty in Hu. Qed.

Lemma held_agrees_call o s :
  consistent s → held_agrees s → fresh_holder o → held_agrees (call o s).2.
Proof.
  intros (Hids & Hloan & Hcat) Hheld Hfresh.
  destruct o as [libro|isbn|usuario|uid|isbn uid|isbn]; simpl in *.
  - unfold anadir_libro. by destruct (od_mem _ _).
  - unfold quitar_libro. destruct (prestamos s !! isbn); [done|].
    by destruct (od_mem _ _).
  - unfold registrar_usuario. case_decide as Hin; [done|].
    intros h u. simpl. destruct (decide (user_id usuario = h)) as [<-|Hne].
    + rewrite lookup_insert_eq. intros [= <-]. rewrite Hfresh.
      split; [constructor|]. intros i. split; [by intros ?%elem_of_nil|].
      intros Hi. destruct (Hloan i _ Hi) as (u' & Hu' & _).
      destruct Hin. rewrite Hids. by apply elem_of_dom_2 in Hu'.
    + rewrite lookup_insert_ne by done. apply Hheld.
  - unfold dar_de_baja_usuario.
    destruct (usuarios s !! uid) as [u|] eqn:Hu; [|done].
    destruct (prestados u) eqn:Hpu; [|done]. case_decide; [|done].
    intros h u'. simpl. intros Hu'. apply lookup_delete_Some in Hu' as [_ Hu'].
    by apply Hheld.
  - unfold prestar_libro. destruct (od_mem _ _); [|done].
    destruct (usuarios s !! uid) as [u|] eqn:Hu; [|done].
    destruct (prestamos s !! isbn) eqn:Hp; [done|].
    destruct (Hheld uid u Hu) as [Hnd Hmem].
    assert (isbn ∉ prestados u) as Hnotin.
    { intros Hi%Hmem. by rewrite Hp in Hi. }
    intros h u'. simpl. destruct (decide (uid = h)) as [<-|Hne].
    + rewrite lookup_insert_eq. intros [= <-]. simpl. split.
      * apply NoDup_app. split_and!; [done| |apply NoDup_singleton].
        intros x Hx ->%list_elem_of_singleton. done.
      * intros i. rewrite elem_of_app, list_elem_of_singleton.
        destruct (decide (isbn = i)) as [<-|Hnei].
        -- rewrite lookup_insert_eq. naive_solver.
        -- rewrite lookup_insert_ne by done. rewrite Hmem. naive_solver.
    + rewrite lookup_insert_ne by done. intros Hu'.
      destruct (Hheld h u' Hu') as [Hnd' Hmem']. split; [done|].
      intros i. rewrite Hmem'. destruct (decide (isbn = i)) as [<-|Hnei].
      * rewrite lookup_insert_eq, Hp. naive_solver.
      * by rewrite lookup_insert_ne.
  - unfold devolver_libro.
    destruct (prestamos s !! isbn) as [uid|] eqn:Hp; [|done]. simpl.
    destruct (Hloan isbn uid Hp) as (u & Hu & Hiu). rewrite Hu. simpl.
    destruct (Hheld uid u Hu) as [Hnd Hmem].
    intros h u'. simpl. destruct (decide (uid = h)) as [<-|Hne].
    + rewrite lookup_insert_eq. intros [= <-]. unfold remove_prestado.
      destruct (py_list_remove isbn (prestados u)) as [l|] eqn:Hl.
      * simpl. destruct (py_list_remove_NoDup _ _ _ Hl Hnd) as [Hnotin Hndl].
        split; [done|]. intros i. destruct (decide (isbn = i)) as [<-|Hnei].
        -- rewrite lookup_delete_eq. naive_solver.
        -- rewrite lookup_delete_ne by done.
           rewrite (py_list_remove_other isbn i _ l) by done. apply Hmem.
      * apply py_list_remove_None in Hl. done.
    + rewrite lookup_insert_ne by done. intros Hu'.
      destruct (Hheld h u' Hu') as [Hnd' Hmem']. split; [done|].
      intros i. rewrite Hmem'. destruct (decide (isbn = i)) as [<-|Hnei].
      * rewrite lookup_delete_eq, Hp. naive_solver.
      * by rewrite lookup_delete_ne.
Qed.

Lemma run_snoc ops o s : run (ops ++ [o]) s = (call o (run ops s)).2.
Proof. unfold run. by rewrite foldl_app. Qed.

Lemma held_agrees_run ops :
  Forall fresh_holder ops → consistent (run ops init) ∧ held_agrees (run ops init).
Proof.
  induction ops as [|o ops IH] using rev_ind; intros Hall.
  - split; [apply consistent_init|apply held_agrees_init].
  - apply Forall_app in Hall as [Hops Ho]. rewrite Forall_singleton in Ho.
    destruct (IH Hops) as [Hc Hh]. rewrite run_snoc. split.
    + by apply consistent_call.
    + by apply held_agrees_call.
Qed.

Lemma reachable_loans_name_holders s : reachable s → loans_name_holders s.
Proof.
  intros (_ & Hloan & _)%reachable_consistent i h Hi.
  destruct (Hloan i h Hi) as (u & Hu & _). eauto.
Qed.

(** A failing call leaves the state as it was, when loans name registered
    users. *)
Lemma call_raise_unchanged o s e s' :
  loans_name_holders s → call o s = (Raise e, s') → s' = s.
Proof.
  intros Hloan.
  destruct o as [libro|isbn|usuario|uid|isbn uid|isbn]; simpl.
  - unfold anadir_libro. destruct (od_mem _ _); by intros [= <-].
  - unfold quitar_libro. destruct (prestamos s !! isbn); [by intros [= <-]|].
    destruct (od_mem _ _); by intros [= <-].
  - unfold registrar_usuario. case_decide; by intros [= <-].
  - unfold dar_de_baja_usuario.
    destruct (usuarios s !! uid) as [u|]; [|by intros [= <-]].
    destruct (prestados u); [|by intros [= <-]].
    case_decide; by intros [= <-].
  - unfold prestar_libro. destruct (od_mem _ _); [|by intros [= <-]].
    destruct (usuarios s !! uid) as [u|]; [|by intros [= <-]].
    destruct (prestamos s !! isbn); by intros [= <-].
  - unfold devolver_libro.
    destruct (prestamos s !! isbn) as [uid|] eqn:Hp; [|by intros [= <-]].
    simpl. destruct (Hloan isbn uid Hp) as (u & Hu). by rewrite Hu.
Qed.

End BibliotecaFacts.

(** ** Inventario *)

Module InventarioFacts.
Import Inventario.

Lemma indexed_add p index key i :
  indexed (_index_add p index) key i ↔
  indexed index key i ∨ (key = _norm (nombre p) ∧ i = pid p).
Proof.
  unfold indexed, _index_add.
  destruct (decide (_norm (nombre p) = key)) as [<-|Hne].
  - rewrite lookup_insert_eq. split.
    + intros (ids & [= <-] & Hi). apply elem_of_union in Hi as [Hi|Hi].
      * left. destruct (index !! _norm (nombre p)) as [ids0|]; simpl in Hi.
        -- eauto.
        -- by apply not_elem_of_empty in Hi.
      * right. by apply elem_of_singleton in Hi.
    + intros [(ids & Hids & Hi)|[_ ->]]; eexists; (split; [done|]).
      * rewrite Hids. simpl. set_solver.
      * set_solver.
  - rewrite lookup_insert_ne by done. naive_solver.
Qed.

Lemma indexed_remove p index key i :
  indexed (_index_remove p index) key i ↔
  indexed index key i ∧ ¬ (key = _norm (nombre p) ∧ i = pid p).
Proof.
  unfold indexed, _index_remove.
  destruct (index !! _norm (nombre p)) as [ids|] eqn:Hb.
  - destruct (decide (ids = ∅)) as [->|Hids].
    + split; [|naive_solver]. intros (ids & Hk & Hi). split; [eauto|].
      intros [-> _]. rewrite Hb in Hk. injection Hk as <-.
      by apply not_elem_of_empty in Hi.
    + destruct (decide (ids ∖ {[pid p]} = ∅)) as [He|Hne];
        (destruct (decide (_norm (nombre p) = key)) as [<-|Hk]).
      * rewrite lookup_delete_eq. split; [naive_solver|].
        intros [(ids0 & Hk0 & Hi) Hn]. rewrite Hb in Hk0. injection Hk0 as <-.
        assert (i ∈ ids ∖ {[pid p]}) as Hin by set_solver.
        rewrite He in Hin. by apply not_elem_of_empty in Hin.
      * rewrite lookup_delete_ne by done. naive_solver.
      * rewrite lookup_insert_eq, Hb. split.
        -- intros (ids1 & [= <-] & Hi). split; [exists ids; set_solver|].
           set_solver.
        -- intros [(ids0 & [= <-] & Hi) Hn]. eexists. split; [done|].
           apply elem_of_difference. split; [done|].
           rewrite not_elem_of_singleton. naive_solver.
      * rewrite lookup_insert_ne by done. naive_solver.
  - split; [|naive_solver]. intros (ids & Hk & Hi). split; [eauto|].
    intros [-> _]. by rewrite Hb in Hk.
Qed.

Lemma index_add_nonempty p index :
  (∀ key, index !! key ≠ Some ∅) → ∀ key, _index_add p index !! key ≠ Some ∅.
Proof.
  intros Hne key. unfold _index_add.
  destruct (decide (_norm (nombre p) = key)) as [<-|Hk].
  - rewrite lookup_insert_eq. intros [= He]. set_solver.
  - by rewrite lookup_insert_ne.
Qed.

Lemma index_remove_nonempty p index :
  (∀ key, index !! key ≠ Some ∅) → ∀ key, _index_remove p index !! key ≠ Some ∅.
Proof.
  intros Hne key. unfold _index_remove.
  destruct (index !! _norm (nombre p)) as [ids|] eqn:Hb; [|done].
  case_decide; [done|]. case_decide.
  - destruct (decide (_norm (nombre p) = key)) as [<-|Hk].
    + by rewrite lookup_delete_eq.
    + by rewrite lookup_delete_ne.
  - destruct (decide (_norm (nombre p) = key)) as [<-|Hk].
    + rewrite lookup_insert_eq. congruence.
    + by rewrite lookup_insert_ne.
Qed.


Lemma index_ok_init : index_ok init.
Proof.
  split_and!; simpl; [done| |intros key; by rewrite lookup_empty].
  intros key i. split.
  - intros (ids & Hk & _). simpl in Hk. by rewrite lookup_empty in Hk.
  - by intros (p & ? & _).
Qed.

Lemma index_ok_agregar p s : index_ok s → index_ok (agregar p s).2.
Proof.
  intros (Hpid & Hidx & Hne). unfold agregar.
  destruct (od_mem _ _) eqn:Hm; [done|]. apply od_mem_false in Hm.
  split_and!; simpl.
  - intros k p0. destruct (decide (pid p = k)) as [<-|Hk].
    + rewrite od_get_set_eq. by intros [= <-].
    + rewrite od_get_set_ne by done. apply Hpid.
  - intros key i. rewrite indexed_add, Hidx.
    destruct (decide (pid p = i)) as [<-|Hi].
    + rewrite od_get_set_eq. rewrite Hm. naive_solver.
    + rewrite od_get_set_ne by done. naive_solver.
  - by apply index_add_nonempty.
Qed.

Lemma index_ok_eliminar pid s : index_ok s → index_ok (eliminar pid s).2.
Proof.
  intros (Hpid & Hidx & Hne). unfold eliminar.
  destruct (od_get pid _) as [p|] eqn:Hp; [|done].
  pose proof (Hpid _ _ Hp) as Hpp.
  split_and!; simpl.
  - intros k p0. destruct (decide (pid = k)) as [<-|Hk].
    + by rewrite od_get_del_eq.
    + rewrite od_get_del_ne by done. apply Hpid.
  - intros key i. rewrite indexed_remove, Hidx.
    destruct (decide (pid = i)) as [<-|Hi].
    + rewrite od_get_del_eq, Hp. naive_solver.
    + rewrite od_get_del_ne by done. naive_solver.
  - by apply index_remove_nonempty.
Qed.

Lemma subscripts_ok (P : Producto → Prop) ids d :
  (∀ i, i ∈ ids → ∃ p, od_get i d = Some p ∧ pid p = i ∧ P p) →
  ∃ l, subscripts ids d = Return l ∧ pid <$> l = ids ∧ Forall P l.
Proof.
  induction ids as [|i ids IH]; intros Hall; simpl.
  - by exists [].
  - destruct (Hall i) as (p & -> & Hp & HP); [left|].
    destruct IH as (l & -> & Hl & HPl).
    { intros j Hj. apply Hall. by right. }
    exists (p :: l). by rewrite fmap_cons, Hp, Hl, Forall_cons.
Qed.

End InventarioFacts.

(** ** Strings *)








(** ** Stable sort *)

Section stable_sort_facts.
Context {A : Type} (leb : A → A → bool).
Hypothesis leb_total : ∀ x y, leb x y = true ∨ leb y x = true.
Hypothesis leb_trans : ∀ x y z, leb x y = true → leb y z = true → leb x z = true.






End stable_sort_facts.

(** * The catalogue service: loans *)

Import Biblioteca.

(** C1. For a book of the catalogue, [disponible] returns [True] exactly
    when [prestamos] has no entry for its ISBN.  [prestar_libro] to a
    registered user of a book without entry returns and adds the entry
    ISBN -> user, after which [disponible] returns [False];
    [devolver_libro] of a book whose entry names a registered user, as every
    entry does in a state the service can be in, returns and deletes that
    entry, after which [disponible] returns [True].  A loan that returns
    found no entry and added exactly that one, a return that returns found
    the entry and deleted exactly that one, and no other method touches
    [prestamos].  The statement holds in every state, so in the state after
    any sequence of calls. *)
Theorem disponible_iff_no_loan (s : t) (isbn user_id : string) :
  od_mem isbn (libros s) = true →
  (disponible isbn s = Return true ↔ prestamos s !! isbn = None) ∧
  (disponible isbn s = Return false ↔ is_Some (prestamos s !! isbn)) ∧
  (is_Some (usuarios s !! user_id) → prestamos s !! isbn = None →
     ∃ s', prestar_libro isbn user_id s = (Return (), s') ∧
           prestamos s' = <[isbn := user_id]> (prestamos s) ∧
           disponible isbn s' = Return false) ∧
  (prestamos s !! isbn = Some user_id → is_Some (usuarios s !! user_id) →
     ∃ s', devolver_libro isbn s = (Return (), s') ∧
           prestamos s' = delete isbn (prestamos s) ∧
           disponible isbn s' = Return true) ∧
  (reachable s → is_Some (prestamos s !! isbn) →
     ∃ s', devolver_libro isbn s = (Return (), s') ∧
           prestamos s' = delete isbn (prestamos s) ∧
           disponible isbn s' = Return true) ∧
  (∀ s', prestar_libro isbn user_id s = (Return (), s') →
         prestamos s !! isbn = None ∧
         prestamos s' = <[isbn := user_id]> (prestamos s)) ∧
  (∀ s', devolver_libro isbn s = (Return (), s') →
         is_Some (prestamos s !! isbn) ∧
         prestamos s' = delete isbn (prestamos s)) ∧
  (∀ o, match o with
        | PrestarLibro _ _ | DevolverLibro _ => True
        | _ => prestamos (call o s).2 = prestamos s
        end).
Proof.
  intros Hcat.
  assert (∀ uid, prestamos s !! isbn = Some uid → is_Some (usuarios s !! uid) →
     ∃ s', devolver_libro isbn s = (Return (), s') ∧
           prestamos s' = delete isbn (prestamos s) ∧
           disponible isbn s' = Return true) as Hret.
  { intros uid Hp [u Hu]. unfold devolver_libro. rewrite Hp. simpl. rewrite Hu.
    eexists. split; [done|]. simpl. split; [done|].
    unfold disponible. simpl. rewrite Hcat, lookup_delete_eq.
    by rewrite bool_decide_eq_true_2. }
  split_and!.
  - unfold disponible. rewrite Hcat. split.
    + intros [= Hb]. by apply bool_decide_eq_true in Hb.
    + intros Hp. by rewrite bool_decide_eq_true_2.
  - unfold disponible. rewrite Hcat. split.
    + intros [= Hb]. apply bool_decide_eq_false in Hb.
      by apply not_eq_None_Some.
    + intros Hp. rewrite bool_decide_eq_false_2; [done|].
      by apply not_eq_None_Some.
  - intros [u Hu] Hp. unfold prestar_libro. rewrite Hcat, Hu, Hp.
    eexists. split; [done|]. simpl. split; [done|].
    unfold disponible. simpl. rewrite Hcat, lookup_insert_eq.
    by rewrite bool_decide_eq_false_2.
  - apply Hret.
  - intros Hs [uid Hp]. apply (Hret uid Hp).
    by apply (BibliotecaFacts.reachable_loans_name_holders s Hs isbn).
  - intros s'. unfold prestar_libro. rewrite Hcat.
    destruct (usuarios s !! user_id); [|done].
    destruct (prestamos s !! isbn); [done|]. by intros [= <-].
  - intros s'. unfold devolver_libro.
    destruct (prestamos s !! isbn) as [uid|]; [|done]. simpl.
    destruct (usuarios s !! uid); [|done]. intros [= <-]. eauto.
  - intros [libro|i|usuario|uid|i uid|i]; simpl; [| | | |done|done].
    + unfold anadir_libro.
      destruct (od_mem (Biblioteca.isbn libro) (libros s)); reflexivity.
    + unfold quitar_libro. destruct (prestamos s !! i); [done|].
      destruct (od_mem i (libros s)); reflexivity.
    + unfold registrar_usuario. by case_decide.
    + unfold dar_de_baja_usuario. destruct (usuarios s !! uid) as [u|]; [|done].
      destruct (prestados u); [|done]. by case_decide.
Qed.

Lemma disponible_iff_no_loan_witness :
  disponible (isbn l3) demo = Return true ∧
  ∃ s1 s2,
    prestar_libro (isbn l3) "U001" demo = (Return (), s1) ∧
    prestamos s1 = <[isbn l3 := "U001"]> (prestamos demo) ∧
    disponible (isbn l3) s1 = Return false ∧
    devolver_libro (isbn l3) s1 = (Return (), s2) ∧
    prestamos s2 = delete (isbn l3) (prestamos s1) ∧
    disponible (isbn l3) s2 = Return true.
Proof.
  assert (od_mem (isbn l3) (libros demo) = true) as Hcat
    by (vm_compute; reflexivity).
  destruct (disponible_iff_no_loan demo (isbn l3) "U001" Hcat)
    as (Hd & _ & Hloan & _).
  assert (prestamos demo !! isbn l3 = None) as Hp by (vm_compute; reflexivity).
  split; [by apply Hd|].
  destruct Hloan as (s1 & Hcall1 & Hp1 & Hd1);
    [exists u1; vm_compute; reflexivity|exact Hp|].
  assert (od_mem (isbn l3) (libros s1) = true) as Hcat1.
  { apply (f_equal snd) in Hcall1. simpl in Hcall1. rewrite <- Hcall1.
    vm_compute; reflexivity. }
  destruct (disponible_iff_no_loan s1 (isbn l3) "U001" Hcat1)
    as (_ & _ & _ & Hback & _).
  destruct Hback as (s2 & Hcall2 & Hp2 & Hd2).
  - rewrite Hp1. apply lookup_insert_eq.
  - apply (f_equal snd) in Hcall1. simpl in Hcall1. rewrite <- Hcall1.
    exists (append_prestado (isbn l3) u1). vm_compute; reflexivity.
  - exists s1, s2. by split_and!.
Defined.

(** C2. A call of [anadir_libro], [quitar_libro], [registrar_usuario],
    [dar_de_baja_usuario], [prestar_libro] or [devolver_libro] that raises
    leaves the whole state (books, users, id set, loans, every user's list)
    as it was before the call.  This holds in every state whose loans name
    registered users, and every state the service can be in is such a
    state.  A raising [agregar] and a raising [eliminar] of the inventory
    likewise leave its products and its index as they were. *)
Theorem failure_leaves_state :
  (∀ s o e s', loans_name_holders s → call o s = (Raise e, s') → s' = s) ∧
  (∀ s o e s', reachable s → call o s = (Raise e, s') → s' = s) ∧
  (∀ s p e s',
     Inventario.agregar p s = (Inventario.Raise e, s') → s' = s) ∧
  (∀ s pid e s',
     Inventario.eliminar pid s = (Inventario.Raise e, s') → s' = s).
Proof.
  split_and!.
  - intros s o e s'. apply BibliotecaFacts.call_raise_unchanged.
  - intros s o e s' Hs. apply BibliotecaFacts.call_raise_unchanged.
    by apply BibliotecaFacts.reachable_loans_name_holders.
  - intros s p e s'. unfold Inventario.agregar.
    destruct (od_mem _ _); by intros [= <-].
  - intros s pid e s'. unfold Inventario.eliminar.
    destruct (od_get _ _); by intros [= <-].
Qed.

Lemma failure_leaves_state_witness :
  let s := run (demo_ops ++ [PrestarLibro (isbn l3) "U001"]) init in
  call (QuitarLibro (isbn l3)) s = (Raise ItemLoaned, s).
Proof.
  intros s.
  destruct (call (QuitarLibro (isbn l3)) s) as [r s'] eqn:Hcall.
  assert (r = Raise ItemLoaned) as -> by
    (apply (f_equal fst) in Hcall; vm_compute in Hcall; by symmetry).
  f_equal.
  apply (proj1 (proj2 failure_leaves_state) s (QuitarLibro (isbn l3))
           ItemLoaned s');
    [apply BibliotecaFacts.reachable_run|exact Hcall].
Defined.

(** C3, as the code has it.  [Usuario.prestados] is a list stored on the
    user; [prestar_libro] appends to it and [devolver_libro] removes from
    it next to the update of [prestamos].  After any sequence of calls in
    which every user is registered with the default list, empty and its
    own (shared with no other user and left alone by the caller), the list
    of every registered user holds exactly the ISBNs that [prestamos] maps
    to that user, each once. *)
Theorem held_list_agrees_with_loans (ops : list op) :
  Forall fresh_holder ops →
  ∀ h u, usuarios (run ops init) !! h = Some u →
    NoDup (prestados u) ∧
    ∀ i, i ∈ prestados u ↔ prestamos (run ops init) !! i = Some h.
Proof. intros Hops. by apply BibliotecaFacts.held_agrees_run. Qed.

Lemma held_list_agrees_with_loans_witness :
  let s := run (demo_ops ++ [PrestarLibro (isbn l3) "U001"]) init in
  ∃ u, usuarios s !! "U001" = Some u ∧
       prestados u = [isbn l3] ∧
       (isbn l3 ∈ prestados u ↔ prestamos s !! isbn l3 = Some "U001").
Proof.
  cbv zeta. set (ops := (demo_ops ++ [PrestarLibro (isbn l3) "U001"])%list).
  assert (Forall fresh_holder ops) as Hops.
  { unfold ops, demo_ops. simpl. repeat constructor. }
  exists (mkUsuario (nombre u1) "U001" [isbn l3]).
  assert (usuarios (run ops init) !! "U001"
          = Some (mkUsuario (nombre u1) "U001" [isbn l3])) as Hu
    by (vm_compute; reflexivity).
  split_and!; [exact Hu|reflexivity|].
  apply (held_list_agrees_with_loans ops Hops "U001" _ Hu).
Defined.

(** C3 as stated fails: a user registered with a list that is not empty
    has an ISBN on the list for which [prestamos] has no entry. *)
Lemma held_list_diverges :
  let s := run [RegistrarUsuario (mkUsuario "Ana" "U009" [isbn l3])] init in
  reachable s ∧
  (∃ u, usuarios s !! "U009" = Some u ∧ isbn l3 ∈ prestados u) ∧
  prestamos s !! isbn l3 = None ∧
  ¬ held_agrees s.
Proof.
  intros s.
  assert (usuarios s !! "U009" = Some (mkUsuario "Ana" "U009" [isbn l3])) as Hu
    by (vm_compute; reflexivity).
  assert (prestamos s !! isbn l3 = None) as Hp by (vm_compute; reflexivity).
  split_and!.
  - apply BibliotecaFacts.reachable_run.
  - eexists. split; [exact Hu|]. simpl. left.
  - exact Hp.
  - intros Hagree. destruct (Hagree _ _ Hu) as [_ Hmem].
    assert (prestamos s !! isbn l3 = Some "U009") as Hp'
      by (apply Hmem; simpl; left).
    rewrite Hp in Hp'. discriminate.
Qed.

(** C5, as the code has it.  [dar_de_baja_usuario] on an unknown id raises
    the not-found [KeyError]; on a registered id it raises the
    user-has-loans [ValueError] exactly when the list recorded on the user
    ([prestados]) is not empty, and otherwise returns with the user gone
    from [usuarios] and the id gone from [user_ids].  After calls in which
    every user is registered with the default list, empty and its own, the
    list is not empty exactly when [prestamos] maps some ISBN to the user,
    which is when [libros_prestados_de] returns some book; a user without
    loans is then deregistered. *)
Theorem dar_de_baja_usuario_spec :
  (∀ s uid, usuarios s !! uid = None →
     dar_de_baja_usuario uid s = (Raise (NotFound Holder), s)) ∧
  (∀ s uid u, usuarios s !! uid = Some u → uid ∈ user_ids s →
     ((dar_de_baja_usuario uid s).1 = Raise HolderHasLoans ↔ prestados u ≠ []) ∧
     (prestados u ≠ [] →
      dar_de_baja_usuario uid s = (Raise HolderHasLoans, s)) ∧
     (prestados u = [] →
      ∃ s', dar_de_baja_usuario uid s = (Return (), s') ∧
            usuarios s' = delete uid (usuarios s) ∧
            user_ids s' = user_ids s ∖ {[uid]} ∧
            usuarios s' !! uid = None ∧ (uid ∉ user_ids s') ∧
            libros s' = libros s ∧ prestamos s' = prestamos s)) ∧
  (∀ ops uid u, Forall fresh_holder ops →
     usuarios (run ops init) !! uid = Some u →
     ((dar_de_baja_usuario uid (run ops init)).1 = Raise HolderHasLoans ↔
      ∃ i, prestamos (run ops init) !! i = Some uid) ∧
     ((dar_de_baja_usuario uid (run ops init)).1 = Raise HolderHasLoans ↔
      ∃ lib l, libros_prestados_de uid (run ops init) = Return (lib :: l)) ∧
     ((∀ i, prestamos (run ops init) !! i ≠ Some uid) →
      ∃ s', dar_de_baja_usuario uid (run ops init) = (Return (), s') ∧
            usuarios s' !! uid = None ∧ (uid ∉ user_ids s'))).
Proof.
  assert (∀ s uid u, usuarios s !! uid = Some u →
    ((dar_de_baja_usuario uid s).1 = Raise HolderHasLoans ↔ prestados u ≠ []))
    as Hiff.
  { intros s uid u Hu. unfold dar_de_baja_usuario. rewrite Hu.
    destruct (prestados u); [|done]. case_decide; done. }
  assert (∀ s uid u, usuarios s !! uid = Some u → uid ∈ user_ids s →
     prestados u = [] →
      ∃ s', dar_de_baja_usuario uid s = (Return (), s') ∧
            usuarios s' = delete uid (usuarios s) ∧
            user_ids s' = user_ids s ∖ {[uid]} ∧
            usuarios s' !! uid = None ∧ (uid ∉ user_ids s') ∧
            libros s' = libros s ∧ prestamos s' = prestamos s) as Hgone.
  { intros s uid u Hu Hin Hp. unfold dar_de_baja_usuario. rewrite Hu, Hp.
    rewrite decide_True by done. eexists. split; [done|]. simpl.
    split_and!; try done; [apply lookup_delete_eq|set_solver]. }
  split_and!.
  - intros s uid Hu. unfold dar_de_baja_usuario. by rewrite Hu.
  - intros s uid u Hu Hin. split_and!; [by apply Hiff| |by apply Hgone].
    intros Hp. unfold dar_de_baja_usuario. rewrite Hu.
    by destruct (prestados u).
  - intros ops uid u Hops Hu.
    destruct (BibliotecaFacts.held_agrees_run ops Hops) as [Hcons Hheld].
    destruct Hcons as (Hids & _ & Hcat).
    destruct (Hheld uid u Hu) as [_ Hmem].
    assert (prestados u ≠ [] ↔ ∃ i, prestamos (run ops init) !! i = Some uid)
      as Hledger.
    { split.
      - destruct (prestados u) as [|i l] eqn:Hl; [done|]. intros _.
        exists i. apply Hmem. left.
      - intros (i & Hi%Hmem) Hl. rewrite Hl in Hi. by apply elem_of_nil in Hi. }
    split_and!.
    + by rewrite (Hiff _ _ _ Hu).
    + rewrite (Hiff _ _ _ Hu). unfold libros_prestados_de. rewrite Hu. split.
      * destruct (prestados u) as [|i l] eqn:Hl; [done|]. intros _.
        assert (od_mem i (libros (run ops init)) = true) as Hm.
        { apply Hcat. exists uid. apply Hmem. left. }
        apply od_mem_true in Hm as [lib Hlib]. simpl. rewrite Hlib. eauto.
      * intros (lib & l & [= Hl]) Hp. by rewrite Hp in Hl.
    + intros Hnone. destruct (Hgone (run ops init) uid u) as (s' & Hs' & _ & _ & H1 & H2 & _).
      * done.
      * rewrite Hids. by apply elem_of_dom_2 in Hu.
      * destruct (prestados u) as [|i l] eqn:Hl; [done|].
        destruct (Hnone i). apply Hmem. left.
      * by exists s'.
Qed.

Lemma dar_de_baja_usuario_spec_witness :
  (dar_de_baja_usuario "U002" demo).1 = Return () ∧
  (dar_de_baja_usuario "U001"
     (run (demo_ops ++ [PrestarLibro (isbn l3) "U001"]) init)).1
  = Raise HolderHasLoans.
Proof.
  split.
  - destruct (proj1 (proj2 dar_de_baja_usuario_spec) demo "U002" u2)
      as (_ & _ & Hok); [vm_compute; reflexivity|vm_compute; reflexivity|].
    destruct (Hok eq_refl) as (s' & -> & _). reflexivity.
  - set (ops := (demo_ops ++ [PrestarLibro (isbn l3) "U001"])%list).
    destruct (proj2 (proj2 dar_de_baja_usuario_spec) ops "U001"
                (mkUsuario (nombre u1) "U001" [isbn l3])) as (Hledger & _).
    + unfold ops, demo_ops. simpl. repeat constructor.
    + vm_compute; reflexivity.
    + apply Hledger. exists (isbn l3). vm_compute; reflexivity.
Defined.

(** C5 as stated fails: a user registered with a list that is not empty
    holds no book, by the loan mapping and by [libros_prestados_de], and
    cannot be deregistered. *)
Lemma dar_de_baja_usuario_reads_the_list :
  let s := run [RegistrarUsuario (mkUsuario "Ana" "U009" ["X"])] init in
  reachable s ∧
  prestamos s = ∅ ∧
  libros_prestados_de "U009" s = Return [] ∧
  dar_de_baja_usuario "U009" s = (Raise HolderHasLoans, s).
Proof.
  intros s. split_and!; [apply BibliotecaFacts.reachable_run|..];
    vm_compute; reflexivity.
Qed.

(** C6. [devolver_libro] is not idempotent: returning a book that is on
    loan to a registered user succeeds, and returning it again at once
    raises the not-loaned [ValueError], the state staying as the first call
    left it; this is so for every book on loan in a state the service can be
    in.  In any state, returning an ISBN without an entry in [prestamos]
    raises that error and changes nothing. *)
Theorem devolver_libro_twice :
  (∀ s isbn uid,
     prestamos s !! isbn = Some uid → is_Some (usuarios s !! uid) →
     ∃ s', devolver_libro isbn s = (Return (), s') ∧
           devolver_libro isbn s' = (Raise NotLoaned, s')) ∧
  (∀ s isbn, reachable s → is_Some (prestamos s !! isbn) →
     ∃ s', devolver_libro isbn s = (Return (), s') ∧
           devolver_libro isbn s' = (Raise NotLoaned, s')) ∧
  (∀ s isbn, prestamos s !! isbn = None →
     devolver_libro isbn s = (Raise NotLoaned, s)).
Proof.
  assert (∀ s isbn uid,
     prestamos s !! isbn = Some uid → is_Some (usuarios s !! uid) →
     ∃ s', devolver_libro isbn s = (Return (), s') ∧
           devolver_libro isbn s' = (Raise NotLoaned, s')) as Htwice.
  { intros s isbn uid Hp [u Hu].
    unfold devolver_libro at 1. rewrite Hp. simpl. rewrite Hu.
    eexists. split; [done|]. unfold devolver_libro. simpl.
    by rewrite lookup_delete_eq. }
  split_and!.
  - exact Htwice.
  - intros s isbn Hs [uid Hp]. apply (Htwice s isbn uid Hp).
    by apply (BibliotecaFacts.reachable_loans_name_holders s Hs isbn).
  - intros s isbn Hp. unfold devolver_libro. by rewrite Hp.
Qed.

Lemma devolver_libro_twice_witness :
  let s := run (demo_ops ++ [PrestarLibro (isbn l3) "U001"]) init in
  ∃ s', devolver_libro (isbn l3) s = (Return (), s') ∧
        devolver_libro (isbn l3) s' = (Raise NotLoaned, s').
Proof.
  intros s.
  apply (proj1 (proj2 devolver_libro_twice) s (isbn l3)).
  - apply BibliotecaFacts.reachable_run.
  - exists "U001". vm_compute; reflexivity.
Defined.

(** C10. [devolver_libro] on an ISBN that [prestamos] maps to a registered
    user returns normally whatever that user's list holds: the entry leaves
    [prestamos], the first occurrence of the ISBN leaves the list when there
    is one, and when there is none the users are left as they were. *)
Theorem devolver_libro_ignores_held_list (s : t) (isbn uid : string) (u : Usuario) :
  prestamos s !! isbn = Some uid →
  usuarios s !! uid = Some u →
  ∃ s', devolver_libro isbn s = (Return (), s') ∧
        prestamos s' = delete isbn (prestamos s) ∧
        usuarios s' = <[uid := remove_prestado isbn u]> (usuarios s) ∧
        (isbn ∉ prestados u → usuarios s' = usuarios s) ∧
        libros s' = libros s ∧ user_ids s' = user_ids s.
Proof.
  intros Hp Hu. unfold devolver_libro. rewrite Hp. simpl. rewrite Hu.
  eexists. split; [done|]. simpl. split_and!; try done.
  intros Hnotin. unfold remove_prestado.
  apply py_list_remove_None in Hnotin. rewrite Hnotin. by apply insert_id.
Qed.

Lemma devolver_libro_ignores_held_list_witness :
  let s := mk (libros demo) (user_ids demo) (usuarios demo)
              {[isbn l3 := "U001"]} in
  prestados u1 = [] ∧
  (devolver_libro (isbn l3) s).1 = Return () ∧
  usuarios (devolver_libro (isbn l3) s).2 = usuarios s.
Proof.
  intros s.
  destruct (devolver_libro_ignores_held_list s (isbn l3) "U001" u1)
    as (s' & Hcall & _ & _ & Hsame & _);
    [vm_compute; reflexivity|vm_compute; reflexivity|].
  rewrite Hcall. split_and!; [reflexivity..|].
  apply Hsame. simpl. apply not_elem_of_nil.
Defined.

(** * The catalogue service: removal *)







(** * The catalogue service: search and listing *)













(** * Further properties of the two modules *)

(** ** Stripping and normalising *)

Lemma lstrip_idem s : lstrip (lstrip s) = lstrip s.
Proof.
  induction s as [|c s IH]; simpl; [done|].
  destruct (isspace c) eqn:Hc; [done|]. simpl. by rewrite Hc.
Qed.

Lemma rstrip_idem s : rstrip (rstrip s) = rstrip s.
Proof.
  induction s as [|c s IH]; simpl; [done|].
  destruct (rstrip s) as [|d r] eqn:Hr.
  - destruct (isspace c) eqn:Hc; simpl; [done|]. by rewrite Hc.
  - simpl in *. by rewrite IH.
Qed.

Lemma rstrip_lstrip s : rstrip (lstrip s) = lstrip (rstrip s).
Proof.
  induction s as [|c s IH]; simpl; [done|].
  destruct (isspace c) eqn:Hc.
  - rewrite IH. destruct (rstrip s) as [|d r]; simpl; by rewrite ?Hc.
  - simpl. destruct (rstrip s) as [|d r]; simpl; by rewrite Hc.
Qed.

Lemma strip_idem s : strip (strip s) = strip s.
Proof.
  unfold strip. by rewrite rstrip_lstrip, rstrip_idem, lstrip_idem.
Qed.

Lemma str_Forall_lstrip P s : str_Forall P s → str_Forall P (lstrip s).
Proof.
  induction s as [|c s IH]; simpl; [done|].
  intros [Hc Hs]. destruct (isspace c); [by apply IH|done].
Qed.

Lemma str_Forall_rstrip P s : str_Forall P s → str_Forall P (rstrip s).
Proof.
  induction s as [|c s IH]; simpl; [done|].
  intros [Hc Hs]. specialize (IH Hs).
  destruct (rstrip s) as [|d r]; [by destruct (isspace c)|done].
Qed.

Lemma str_Forall_strip P s : str_Forall P s → str_Forall P (strip s).
Proof. intros Hs. by apply str_Forall_lstrip, str_Forall_rstrip. Qed.

Lemma char_cases (P : ascii → Prop) :
  (∀ b0 b1 b2 b3 b4 b5 b6 b7, P (Ascii b0 b1 b2 b3 b4 b5 b6 b7)) → ∀ c, P c.
Proof. intros H []. apply H. Qed.

Lemma nfd_ascii_lower_lowered s : str_Forall ascii_lowered (lower (nfd_ascii s)).
Proof.
  induction s as [|c s IH]; simpl; [done|].
  revert c. apply char_cases.
  intros [] [] [] [] [] [] [] []; simpl; try exact IH;
    (split; [by vm_compute|exact IH]).
Qed.

Lemma nfd_ascii_fixed s : str_Forall ascii_lowered s → nfd_ascii s = s.
Proof.
  induction s as [|c s IH]; simpl; [done|].
  intros [[Hc _] Hs]. by rewrite Hc, IH.
Qed.

Lemma lower_fixed s : str_Forall ascii_lowered s → lower s = s.
Proof.
  unfold lower. induction s as [|c s IH]; simpl; [done|].
  intros [[_ Hc] Hs]. by rewrite Hc, IH.
Qed.

(** X1. A normalised name is its own normalisation: looking a key of the
    index up by itself finds the same key. *)
Theorem norm_idempotent (s : string) : _norm (_norm s) = _norm s.
Proof.
  unfold _norm.
  pose proof (str_Forall_strip _ _ (nfd_ascii_lower_lowered s)) as Hs.
  by rewrite (nfd_ascii_fixed _ Hs), (lower_fixed _ Hs), strip_idem.
Qed.

Lemma nfd_ascii_lower_char c s :
  lower (nfd_ascii (String (char_lower c) s)) = lower (nfd_ascii (String c s)).
Proof.
  revert c. apply char_cases.
  intros [] [] [] [] [] [] [] []; reflexivity.
Qed.

Lemma nfd_ascii_cons_lower c s s' :
  lower (nfd_ascii s) = lower (nfd_ascii s') →
  lower (nfd_ascii (String c s)) = lower (nfd_ascii (String c s')).
Proof.
  intros Heq. simpl. destruct (ord c <? 128)%N; simpl.
  - unfold lower in *. simpl. by rewrite Heq.
  - destruct (nfd_base (ord c)); [|done]. unfold lower in *. simpl. by rewrite Heq.
Qed.

Lemma nfd_base_ascii n b : nfd_base n = Some b → (ord b <? 128)%N = true.
Proof.
  unfold nfd_base. repeat case_match; intros [= <-]; reflexivity.
Qed.

Lemma nfd_ascii_idem s : nfd_ascii (nfd_ascii s) = nfd_ascii s.
Proof.
  induction s as [|c s IH]; simpl; [done|].
  destruct (ord c <? 128)%N eqn:Hc; simpl.
  - by rewrite Hc, IH.
  - destruct (nfd_base (ord c)) as [b|] eqn:Hb; [|done]. simpl.
    by rewrite (nfd_base_ascii _ _ Hb), IH.
Qed.

(** X2. The normalisation does not see letter case or accents: a name and
    its lower-case form, and a name and its form without accents, have the
    same normalisation. *)
Theorem norm_ignores_case_and_accents (s : string) :
  _norm (lower s) = _norm s ∧ _norm (nfd_ascii s) = _norm s.
Proof.
  unfold _norm. split; [|by rewrite nfd_ascii_idem].
  f_equal. induction s as [|c s IH]; [done|].
  change (lower (String c s)) with (String (char_lower c) (lower s)).
  transitivity (lower (nfd_ascii (String (char_lower c) s))).
  - by apply nfd_ascii_cons_lower.
  - apply nfd_ascii_lower_char.
Qed.

(** ** Inventario: construction, lookup and updates *)

Module InventarioUpdatesFacts.
Import Inventario InventarioUpdates.

Lemma strip_empty : strip "" = "".
Proof. reflexivity. Qed.

Lemma set_cantidad_Ok c x : set_cantidad c = Ok x ↔ (0 ≤ c)%Z ∧ x = c.
Proof.
  unfold set_cantidad. destruct (c <? 0)%Z eqn:Hc.
  - apply Z.ltb_lt in Hc. split; [done|]. intros [? _]. lia.
  - apply Z.ltb_ge in Hc. split; [by intros [= <-]|]. by intros [_ ->].
Qed.

Lemma set_precio_Ok r x : set_precio r = Ok x ↔ (0 ≤ r)%Qc ∧ x = r.
Proof.
  unfold set_precio. case_decide as Hr.
  - split; [done|]. intros [Hle _]. by apply Qcle_not_lt in Hle.
  - apply Qcnot_lt_le in Hr. split; [by intros [= <-]|]. by intros [_ ->].
Qed.

Lemma new_Producto_Ok a b c d p :
  new_Producto a b c d = Ok p ↔
  strip a ≠ "" ∧ strip b ≠ "" ∧ (0 ≤ c)%Z ∧ (0 ≤ d)%Qc ∧
  p = mkProducto (strip a) (strip b) c d.
Proof.
  unfold new_Producto, __init__, __post_init__, set_pid, set_nombre.
  destruct (decide (a = "")) as [->|Ha]; simpl.
  { split; [done|]. intros [Hs _]. by rewrite strip_empty in Hs. }
  destruct (decide (b = "")) as [->|Hb]; simpl.
  { split; [done|]. intros (_ & Hs & _). by rewrite strip_empty in Hs. }
  destruct (set_cantidad c) as [c'|e] eqn:Hc; simpl.
  2:{ split; [done|]. intros (_ & _ & Hc' & _).
      assert (set_cantidad c = Ok c) as Hok by by apply set_cantidad_Ok.
      congruence. }
  apply set_cantidad_Ok in Hc as [Hc ->].
  destruct (set_precio d) as [d'|e] eqn:Hd; simpl.
  2:{ split; [done|]. intros (_ & _ & _ & Hd' & _).
      assert (set_precio d = Ok d) as Hok by by apply set_precio_Ok.
      congruence. }
  apply set_precio_Ok in Hd as [Hd ->].
  destruct (decide (strip a = "")) as [Hsa|Hsa]; simpl.
  { split; [done|]. by intros [? _]. }
  destruct (decide (strip b = "")) as [Hsb|Hsb]; simpl.
  { split; [done|]. by intros (_ & ? & _). }
  assert (set_cantidad c = Ok c) as -> by by apply set_cantidad_Ok.
  assert (set_precio d = Ok d) as -> by by apply set_precio_Ok.
  simpl. rewrite !strip_idem. split.
  - by intros [= <-].
  - by intros (_ & _ & _ & _ & ->).
Qed.

Lemma new_Producto_valid p :
  valid p → new_Producto (pid p) (nombre p) (cantidad p) (precio p) = Ok p.
Proof.
  destruct p as [a b c d]. intros (Ha & Ha' & Hb & Hb' & Hc & Hd). simpl in *.
  apply new_Producto_Ok. rewrite Ha, Hb. done.
Qed.

(** X3. The constructor of [Producto] returns exactly when the id and the
    name are not blank and the quantity and the price are not negative, and
    then the product holds the stripped id and name: a blank id or name,
    which the setter alone would store as the empty string, is refused by
    the second assignment of [__post_init__].  A product is built by the
    constructor exactly when it is [valid], and building it again from its
    own fields gives it back. *)
Theorem new_Producto_spec :
  (∀ a b c d p,
     new_Producto a b c d = Ok p ↔
     strip a ≠ "" ∧ strip b ≠ "" ∧ (0 ≤ c)%Z ∧ (0 ≤ d)%Qc ∧
     p = mkProducto (strip a) (strip b) c d) ∧
  (∀ a b c d, a ≠ "" → strip a = "" → b ≠ "" → (0 ≤ c)%Z → (0 ≤ d)%Qc →
     __init__ a b c d = Ok (mkProducto "" (strip b) c d) ∧
     new_Producto a b c d = Err (ValueError Pid)) ∧
  (∀ a b c d p, new_Producto a b c d = Ok p → valid p) ∧
  (∀ p, valid p →
     new_Producto (pid p) (nombre p) (cantidad p) (precio p) = Ok p).
Proof.
  split_and!.
  - apply new_Producto_Ok.
  - intros a b c d Ha Hsa Hb Hc Hd.
    unfold new_Producto, __init__, __post_init__, set_pid, set_nombre.
    rewrite !decide_False by done. simpl.
    assert (set_cantidad c = Ok c) as -> by by apply set_cantidad_Ok.
    assert (set_precio d = Ok d) as -> by by apply set_precio_Ok.
    simpl. by rewrite Hsa.
  - intros a b c d p (Ha & Hb & Hc & Hd & ->)%new_Producto_Ok.
    unfold valid. simpl. by rewrite !strip_idem.
  - apply new_Producto_valid.
Qed.

Lemma new_Producto_spec_witness :
  new_Producto " P7 " "Leche " 3 (Q2Qc (1 # 2))
  = Ok (mkProducto "P7" "Leche" 3 (Q2Qc (1 # 2))) ∧
  new_Producto "  " "Leche" 3 0 = Err (ValueError Pid).
Proof.
  split.
  - apply (proj1 new_Producto_spec). split_and!; done.
  - apply (proj1 (proj2 new_Producto_spec) "  " "Leche" 3%Z (Q2Qc 0)); done.
Defined.

(** X4. Storing and looking up: after [agregar] of a product with a new id,
    [obtener] of that id returns the product, every other id is looked up
    as before, and the product is the last of the products.  After
    [eliminar] of a stored id, which returns the stored product, [obtener]
    of that id raises the not-found [KeyError], and every other id is
    looked up as before. *)
Theorem obtener_after_agregar_eliminar :
  (∀ s p, od_mem (pid p) (_productos s) = false →
     ∃ s1, agregar p s = (Return (), s1) ∧
           obtener (pid p) s1 = Return p ∧
           (∀ k, k ≠ pid p → obtener k s1 = obtener k s) ∧
           od_values (_productos s1) = (od_values (_productos s) ++ [p])%list) ∧
  (∀ s k p, od_get k (_productos s) = Some p →
     ∃ s1, eliminar k s = (Return p, s1) ∧
           obtener k s1 = Raise (NotFound k) ∧
           (∀ k', k' ≠ k → obtener k' s1 = obtener k' s) ∧
           od_values (_productos s1) `sublist_of` od_values (_productos s)).
Proof.
  split.
  - intros s p Hm. unfold agregar. rewrite Hm. eexists. split; [done|].
    unfold obtener. simpl. rewrite od_get_set_eq. split_and!; [done| |].
    + intros k Hk. by rewrite od_get_set_ne.
    + apply od_mem_false in Hm. rewrite od_set_fresh by done.
      unfold od_values. by rewrite fmap_app.
  - intros s k p Hp. unfold eliminar. rewrite Hp. eexists. split; [done|].
    unfold obtener. simpl. rewrite od_get_del_eq. split_and!; [done| |].
    + intros k' Hk. by rewrite od_get_del_ne.
    + unfold od_values, od_del. apply fmap_sublist, sublist_filter.
Qed.

Lemma obtener_after_agregar_eliminar_witness :
  (∃ s1, agregar (mkProducto "P9" "Sal" 1 0) tienda = (Return (), s1) ∧
         obtener "P9" s1 = Return (mkProducto "P9" "Sal" 1 0)) ∧
  (∃ s1, eliminar "P1" tienda = (Return cafe, s1) ∧
         obtener "P1" s1 = Raise (NotFound "P1")).
Proof.
  split.
  - destruct (proj1 obtener_after_agregar_eliminar tienda
                (mkProducto "P9" "Sal" 1 0)) as (s1 & H1 & H2 & _);
      [vm_compute; reflexivity|]. by exists s1.
  - destruct (proj2 obtener_after_agregar_eliminar tienda "P1" cafe)
      as (s1 & H1 & H2 & _); [vm_compute; reflexivity|]. by exists s1.
Defined.

Lemma od_keys_set_present {V} k (v v' : V) d :
  od_get k d = Some v → od_keys (od_set k v' d) = od_keys d.
Proof.
  unfold od_keys. induction d as [|[k0 v0] d IH]; simpl; [done|].
  case_decide as Hk.
  - intros _. rewrite !fmap_cons. simpl. by subst.
  - intros Hd. rewrite !fmap_cons. f_equal. by apply IH.
Qed.

(** Replacing a stored product by one of the same id and the same
    normalised name keeps the index in agreement. *)
Lemma index_ok_replace s k p p' :
  index_ok s → od_get k (_productos s) = Some p →
  pid p' = pid p → _norm (nombre p') = _norm (nombre p) →
  index_ok (mk (od_set k p' (_productos s)) (_index_nombre s)).
Proof.
  intros (Hpid & Hidx & Hne) Hp Hid Hnorm. split_and!; simpl; [| |done].
  - intros k0 q. destruct (decide (k = k0)) as [<-|Hk].
    + rewrite od_get_set_eq. intros [= <-]. rewrite Hid. by apply Hpid.
    + rewrite od_get_set_ne by done. apply Hpid.
  - intros key i. rewrite Hidx. destruct (decide (k = i)) as [<-|Hk].
    + rewrite od_get_set_eq, Hp. split.
      * intros (q & [= <-] & Hq). exists p'. by rewrite Hnorm.
      * intros (q & [= <-] & Hq). exists p. by rewrite <- Hnorm.
    + by rewrite od_get_set_ne.
Qed.

(** X5. [actualizar_cantidad] and [actualizar_precio] raise the not-found
    [KeyError] for an unknown id and the [ValueError] of the setter for a
    negative value, leaving the inventory as it was; otherwise they return,
    the product of that id has the new value and its other fields, every
    other product, the order of the products and the index are unchanged,
    and an index that agreed with the products still does. *)
Theorem actualizar_cantidad_precio_spec :
  (∀ s k n, od_get k (_productos s) = None →
     actualizar_cantidad k n s = (Err (Inv (NotFound k)), s)) ∧
  (∀ s k n p, od_get k (_productos s) = Some p → (n < 0)%Z →
     actualizar_cantidad k n s = (Err (ValueError Cantidad), s)) ∧
  (∀ s k n p, od_get k (_productos s) = Some p → (0 ≤ n)%Z →
     ∃ s', actualizar_cantidad k n s = (Ok (), s') ∧
           od_get k (_productos s')
           = Some (mkProducto (pid p) (nombre p) n (precio p)) ∧
           (∀ k', k' ≠ k →
              od_get k' (_productos s') = od_get k' (_productos s)) ∧
           od_keys (_productos s') = od_keys (_productos s) ∧
           _index_nombre s' = _index_nombre s ∧
           (index_ok s → index_ok s')) ∧
  (∀ s k r, od_get k (_productos s) = None →
     actualizar_precio k r s = (Err (Inv (NotFound k)), s)) ∧
  (∀ s k r p, od_get k (_productos s) = Some p → (r < 0)%Qc →
     actualizar_precio k r s = (Err (ValueError Precio), s)) ∧
  (∀ s k r p, od_get k (_productos s) = Some p → (0 ≤ r)%Qc →
     ∃ s', actualizar_precio k r s = (Ok (), s') ∧
           od_get k (_productos s')
           = Some (mkProducto (pid p) (nombre p) (cantidad p) r) ∧
           (∀ k', k' ≠ k →
              od_get k' (_productos s') = od_get k' (_productos s)) ∧
           od_keys (_productos s') = od_keys (_productos s) ∧
           _index_nombre s' = _index_nombre s ∧
           (index_ok s → index_ok s')).
Proof.
  split_and!.
  - intros s k n Hk. unfold actualizar_cantidad. by rewrite Hk.
  - intros s k n p Hk Hn. unfold actualizar_cantidad, set_cantidad.
    rewrite Hk. by apply Z.ltb_lt in Hn as ->.
  - intros s k n p Hk Hn. unfold actualizar_cantidad, set_cantidad.
    rewrite Hk. apply Z.ltb_ge in Hn as ->. eexists. split; [done|]. simpl.
    split_and!; [apply od_get_set_eq| |by eapply od_keys_set_present|done|].
    + intros k' Hk'. by apply od_get_set_ne.
    + intros Hok. by apply (index_ok_replace s k p).
  - intros s k r Hk. unfold actualizar_precio. by rewrite Hk.
  - intros s k r p Hk Hr. unfold actualizar_precio, set_precio.
    rewrite Hk. by rewrite decide_True.
  - intros s k r p Hk Hr. unfold actualizar_precio, set_precio.
    rewrite Hk. rewrite decide_False by by apply Qcle_not_lt.
    eexists. split; [done|]. simpl.
    split_and!; [apply od_get_set_eq| |by eapply od_keys_set_present|done|].
    + intros k' Hk'. by apply od_get_set_ne.
    + intros Hok. by apply (index_ok_replace s k p).
Qed.

Lemma actualizar_cantidad_precio_spec_witness :
  (actualizar_cantidad "P1" (-1) tienda).1 = Err (ValueError Cantidad) ∧
  (∃ s', actualizar_cantidad "P1" 7 tienda = (Ok (), s') ∧
         obtener "P1" s' = Return (mkProducto "P1" (nombre cafe) 7 (precio cafe)) ∧
         od_keys (_productos s') = ["P2"; "P1"; "P3"]).
Proof.
  split.
  - rewrite (proj1 (proj2 actualizar_cantidad_precio_spec) tienda "P1" (-1)%Z cafe);
      [done|vm_compute; reflexivity|done].
  - destruct (proj1 (proj2 (proj2 actualizar_cantidad_precio_spec))
                tienda "P1" 7%Z cafe) as (s' & H1 & H2 & _ & H3 & _);
      [vm_compute; reflexivity|done|].
    exists s'. split_and!; [done| |].
    + unfold obtener. by rewrite H2.
    + rewrite H3. vm_compute; reflexivity.
Defined.

Lemma norm_empty : _norm "" = "".
Proof. reflexivity. Qed.

(** What a rename does when it goes through: the product gets the stripped
    name, and the index is patched unless the normalised name is the same. *)
Lemma actualizar_nombre_goes_through s k p nuevo :
  index_ok s → od_get k (_productos s) = Some p → nuevo ≠ "" →
  valid p ∨ _norm (nombre p) = _norm (strip nuevo) →
  ∃ s', actualizar_nombre k nuevo s = (Ok (), s') ∧
        _productos s'
        = od_set k (mkProducto (pid p) (strip nuevo) (cantidad p) (precio p))
                 (_productos s) ∧
        index_ok s'.
Proof.
  intros Hok Hp Hnuevo Hcase. unfold actualizar_nombre, set_nombre.
  rewrite Hp, decide_False by done. unfold _index_update_nombre. simpl.
  destruct (decide (_norm (nombre p) = _norm (strip nuevo))) as [Heq|Hneq].
  - eexists. split_and!; [done..|].
    by apply (index_ok_replace s k p).
  - destruct Hcase as [Hvalid|?]; [|done].
    assert (new_Producto (pid p) (nombre p) (cantidad p) (precio p) = Ok p)
      as -> by by apply new_Producto_valid.
    simpl. eexists. split_and!; [done..|].
    destruct Hok as (Hpid & Hidx & Hne).
    pose proof (Hpid _ _ Hp) as Hk.
    split_and!; simpl.
    + intros k0 q. destruct (decide (k = k0)) as [<-|Hk0].
      * rewrite od_get_set_eq. by intros [= <-].
      * rewrite od_get_set_ne by done. apply Hpid.
    + intros key i.
      rewrite InventarioFacts.indexed_add, InventarioFacts.indexed_remove, Hidx.
      simpl. destruct (decide (k = i)) as [<-|Hi].
      * rewrite od_get_set_eq, Hp. split.
        -- intros [[(q & [= <-] & Hq) Hn]|[-> _]]; [|by eexists].
           destruct Hn. by split.
        -- intros (q & [= <-] & <-). simpl. by right.
      * rewrite od_get_set_ne by done. split.
        -- by intros [[Hq _]|[_ ->]].
        -- intros Hq. left. split; [done|]. intros [_ ->]. done.
    + by apply InventarioFacts.index_add_nonempty,
        InventarioFacts.index_remove_nonempty.
Qed.

(** X6. [actualizar_nombre] raises the not-found [KeyError] for an unknown
    id and the [ValueError] of the setter for the empty name, leaving the
    inventory as it was.  For a product as the constructor builds it and a
    name that is not empty it returns: the product has the stripped name,
    the index still agrees with the products, and the id sits in the
    bucket of the new normalised name and in no other. *)
Theorem actualizar_nombre_spec :
  (∀ s k nuevo, od_get k (_productos s) = None →
     actualizar_nombre k nuevo s = (Err (Inv (NotFound k)), s)) ∧
  (∀ s k p, od_get k (_productos s) = Some p →
     actualizar_nombre k "" s = (Err (ValueError Nombre), s)) ∧
  (∀ s k p nuevo,
     index_ok s → od_get k (_productos s) = Some p → valid p → nuevo ≠ "" →
     ∃ s', actualizar_nombre k nuevo s = (Ok (), s') ∧
           od_get k (_productos s')
           = Some (mkProducto (pid p) (strip nuevo) (cantidad p) (precio p)) ∧
           (∀ k', k' ≠ k →
              od_get k' (_productos s') = od_get k' (_productos s)) ∧
           od_keys (_productos s') = od_keys (_productos s) ∧
           index_ok s' ∧
           (∀ key, indexed (_index_nombre s') key k ↔
                   key = _norm (strip nuevo))).
Proof.
  split_and!.
  - intros s k nuevo Hk. unfold actualizar_nombre. by rewrite Hk.
  - intros s k p Hk. unfold actualizar_nombre. by rewrite Hk.
  - intros s k p nuevo Hok Hp Hvalid Hnuevo.
    destruct (actualizar_nombre_goes_through s k p nuevo)
      as (s' & Hcall & Hprod & Hok'); [by auto..|].
    exists s'. rewrite Hprod.
    split_and!; [done|apply od_get_set_eq| |by eapply od_keys_set_present|done|].
    + intros k' Hk'. by apply od_get_set_ne.
    + intros key. destruct Hok' as (_ & Hidx & _). rewrite Hidx, Hprod.
      rewrite od_get_set_eq. split.
      * by intros (q & [= <-] & <-).
      * intros ->. by eexists.
Qed.

Lemma actualizar_nombre_spec_witness :
  ∃ s', actualizar_nombre "P2" " Pan Integral" tienda = (Ok (), s') ∧
        obtener "P2" s' = Return (mkProducto "P2" "Pan Integral" 5 (precio pan)) ∧
        indexed (_index_nombre s') "pan integral" "P2".
Proof.
  destruct (proj2 (proj2 actualizar_nombre_spec) tienda "P2" pan " Pan Integral")
    as (s' & H1 & H2 & _ & _ & _ & H3).
  - unfold tienda. repeat apply InventarioFacts.index_ok_agregar.
    apply InventarioFacts.index_ok_init.
  - vm_compute; reflexivity.
  - unfold valid. vm_compute. split_and!; done.
  - done.
  - exists s'. split_and!; [done| |by apply H3].
    unfold obtener. by rewrite H2.
Defined.

(** X7. A rename that raises is not undone.  After a product as the
    constructor builds it is renamed to a blank name, which goes through
    and stores the empty name, the next rename to a name with a normalised
    form raises the [ValueError] of the name setter from the construction of
    the pseudo product, after the new name was stored and before the index
    was touched: the product has the new name, the index is the one from
    before the call, and the two no longer agree. *)
Theorem actualizar_nombre_raises_after_renaming (s : t) (k : string)
    (p : Producto) (blanco nuevo : string) :
  index_ok s → od_get k (_productos s) = Some p → valid p →
  blanco ≠ "" → strip blanco = "" → _norm (strip nuevo) ≠ "" →
  ∃ s1 s2,
    actualizar_nombre k blanco s = (Ok (), s1) ∧
    od_get k (_productos s1)
    = Some (mkProducto (pid p) "" (cantidad p) (precio p)) ∧
    index_ok s1 ∧
    actualizar_nombre k nuevo s1 = (Err (ValueError Nombre), s2) ∧
    od_get k (_productos s2)
    = Some (mkProducto (pid p) (strip nuevo) (cantidad p) (precio p)) ∧
    _index_nombre s2 = _index_nombre s1 ∧
    ¬ index_ok s2.
Proof.
  intros Hok Hp Hvalid Hblanco Hstrip Hnorm.
  destruct (actualizar_nombre_goes_through s k p blanco)
    as (s1 & Hcall1 & Hprod1 & Hok1); [by auto..|].
  rewrite Hstrip in Hprod1.
  assert (od_get k (_productos s1)
          = Some (mkProducto (pid p) "" (cantidad p) (precio p))) as Hp1
    by (rewrite Hprod1; apply od_get_set_eq).
  assert (nuevo ≠ "") as Hnuevo by (intros ->; by apply Hnorm).
  exists s1. unfold actualizar_nombre at 2. unfold set_nombre.
  rewrite Hp1, decide_False by done. unfold _index_update_nombre. simpl.
  rewrite decide_False by (rewrite norm_empty; congruence).
  destruct Hvalid as (_ & Hpid & _).
  unfold new_Producto, __init__, set_pid, set_nombre. simpl.
  rewrite (decide_False (P := pid p = "")) by done. simpl.
  eexists. split_and!; [done..|apply od_get_set_eq|done|].
  intros (_ & Hidx2 & _). simpl in Hidx2.
  destruct Hok1 as (_ & Hidx1 & _).
  assert (indexed (_index_nombre s1) "" k) as Hin.
  { apply Hidx1. eexists. split; [exact Hp1|]. apply norm_empty. }
  apply Hidx2 in Hin as (q & Hq & Hqn). rewrite od_get_set_eq in Hq.
  injection Hq as <-. simpl in Hqn. done.
Qed.

Lemma actualizar_nombre_raises_after_renaming_witness :
  ∃ s1 s2,
    actualizar_nombre "P2" " " tienda = (Ok (), s1) ∧
    actualizar_nombre "P2" "Torta" s1 = (Err (ValueError Nombre), s2) ∧
    obtener "P2" s2 = Return (mkProducto "P2" "Torta" 5 (precio pan)) ∧
    _index_nombre s2 = _index_nombre s1 ∧
    ¬ index_ok s2.
Proof.
  destruct (actualizar_nombre_raises_after_renaming tienda "P2" pan " " "Torta")
    as (s1 & s2 & H1 & _ & _ & H2 & H3 & H4 & H5).
  - unfold tienda. repeat apply InventarioFacts.index_ok_agregar.
    apply InventarioFacts.index_ok_init.
  - vm_compute; reflexivity.
  - unfold valid. vm_compute. split_and!; done.
  - done.
  - vm_compute; reflexivity.
  - vm_compute. done.
  - exists s1, s2. split_and!; [done..| |done|done].
    unfold obtener. by rewrite H3.
Defined.

Lemma subscripts_elem ids d l :
  subscripts ids d = Return l →
  ∀ p, p ∈ l ↔ ∃ i, i ∈ ids ∧ od_get i d = Some p.
Proof.
  revert l. induction ids as [|i ids IH]; intros l; simpl.
  - intros [= <-] p. split; [by intros ?%elem_of_nil|].
    by intros (j & ?%elem_of_nil & _).
  - destruct (od_get i d) as [q|] eqn:Hq; [|done].
    destruct (subscripts ids d) as [ps|]; [|done].
    intros [= <-] p. rewrite elem_of_cons, (IH ps eq_refl). split.
    + intros [->|(j & Hj & Hp)].
      * exists i. split; [left|done].
      * exists j. split; [by right|done].
    + intros (j & Hj & Hp). apply elem_of_cons in Hj as [->|Hj].
      * left. congruence.
      * right. eauto.
Qed.

(** X8. On an inventory whose index agrees with its products,
    [buscar_por_nombre] always returns, and what it returns depends on
    whether some product has the query as its whole normalised name.  If
    one has, the result holds exactly the products whose normalised name
    equals the normalised query, and not the others whose name merely
    contains it; if none has, the result is the products whose normalised
    name contains the normalised query, in the order of the products. *)
Theorem buscar_por_nombre_spec (iter : gset string → list string)
    (consulta : string) (s : t) :
  index_ok s → (∀ X, iter X ≡ₚ elements X) →
  ∃ l, buscar_por_nombre iter consulta s = Return l ∧
    ((∃ k p0, od_get k (_productos s) = Some p0 ∧
              _norm (nombre p0) = _norm consulta) →
     ∀ p, p ∈ l ↔ ∃ k, od_get k (_productos s) = Some p ∧
                       _norm (nombre p) = _norm consulta) ∧
    ((∀ k p0, od_get k (_productos s) = Some p0 →
              _norm (nombre p0) ≠ _norm consulta) →
     l = filter (λ p, str_in (_norm consulta) (_norm (nombre p)) = true)
                (od_values (_productos s))).
Proof.
  intros (Hpid & Hidx & Hne) Hiter. unfold buscar_por_nombre.
  destruct (_index_nombre s !! _norm consulta) as [ids|] eqn:Hq.
  - destruct (InventarioFacts.subscripts_ok (λ _, True) (iter ids) (_productos s))
      as (l & Hl & _ & _).
    { intros i Hi. assert (i ∈ ids) as Hin.
      { apply elem_of_elements. by rewrite <- (Hiter ids). }
      destruct (proj1 (Hidx (_norm consulta) i)) as (p & Hp & _);
        [by exists ids|].
      exists p. split_and!; [done|by apply Hpid|done]. }
    exists l. split; [done|]. split.
    + intros _ p. rewrite (subscripts_elem _ _ _ Hl). split.
      * intros (i & Hi & Hp). exists i. split; [done|].
        assert (indexed (_index_nombre s) (_norm consulta) i) as Hin.
        { exists ids. split; [done|]. apply elem_of_elements.
          by rewrite <- (Hiter ids). }
        apply Hidx in Hin as (p' & Hp' & Hn). congruence.
      * intros (k & Hp & Hn).
        destruct (proj2 (Hidx (_norm consulta) k)) as (ids' & Hids' & Hk);
          [by exists p|].
        exists k. split; [|done]. rewrite Hq in Hids'. injection Hids' as <-.
        rewrite (Hiter ids). by apply elem_of_elements.
    + intros Hnone. exfalso.
      destruct (set_choose_L ids) as [i Hi].
      { intros ->. by apply (Hne (_norm consulta)). }
      destruct (proj1 (Hidx (_norm consulta) i)) as (p & Hp & Hn);
        [by exists ids|].
      by apply (Hnone i p).
  - eexists. split; [done|]. split; [|done].
    intros (k & p0 & Hp0 & Hn). exfalso.
    destruct (proj2 (Hidx (_norm consulta) k)) as (ids & Hids & _);
      [by exists p0|]. congruence.
Qed.

Lemma buscar_por_nombre_spec_witness :
  let integral := mkProducto "P4" "Pan integral" 2 0 in
  let s := (agregar integral tienda).2 in
  buscar_por_nombre elements "pa" s = Return [pan; integral] ∧
  ∃ l, buscar_por_nombre elements "PAN" s = Return l ∧
       (pan ∈ l) ∧ (integral ∉ l).
Proof.
  intros integral s.
  split; [vm_compute; reflexivity|].
  destruct (buscar_por_nombre_spec elements "PAN" s) as (l & Hl & Hexact & _).
  - unfold s, tienda. repeat apply InventarioFacts.index_ok_agregar.
    apply InventarioFacts.index_ok_init.
  - done.
  - exists l. split; [done|].
    assert (∃ k p0, od_get k (_productos s) = Some p0 ∧
                    _norm (nombre p0) = _norm "PAN") as Hex
      by (exists "P2", pan; split; vm_compute; reflexivity).
    specialize (Hexact Hex). split.
    + apply Hexact. exists "P2". split; vm_compute; reflexivity.
    + intros (k & Hk & Hn)%Hexact. vm_compute in Hn. discriminate.
Defined.

End InventarioUpdatesFacts.

(** ** Biblioteca: invariants, queries and round trips *)

Module BibliotecaMoreFacts.
Import Biblioteca.

Lemma od_get_None_iff {V} k (d : list (string * V)) :
  od_get k d = None ↔ k ∉ od_keys d.
Proof.
  unfold od_keys. induction d as [|[k0 v0] d IH]; simpl.
  - split; [intros _; apply not_elem_of_nil|done].
  - rewrite not_elem_of_cons. case_decide as Hk; split.
    + done.
    + by intros [? _].
    + intros Hd. split; [done|]. by apply IH.
    + intros [_ Hd]. by apply IH.
Qed.

Lemma od_get_Some_elem {V} k (v : V) d : od_get k d = Some v → (k, v) ∈ d.
Proof.
  induction d as [|[k0 v0] d IH]; simpl; [done|].
  case_decide as Hk.
  - intros [= ->]. subst. left.
  - intros Hd. right. by apply IH.
Qed.

Lemma od_get_NoDup {V} k (v : V) d :
  NoDup (od_keys d) → (k, v) ∈ d → od_get k d = Some v.
Proof.
  unfold od_keys. induction d as [|[k0 v0] d IH]; intros Hnd Hin.
  - by apply elem_of_nil in Hin.
  - rewrite fmap_cons in Hnd. apply NoDup_cons in Hnd as [Hk0 Hd]. simpl in *.
    apply elem_of_cons in Hin as [Heq|Hin].
    + injection Heq as -> ->. by rewrite decide_True.
    + case_decide as Hk; [|by apply IH].
      subst k0. destruct Hk0. apply list_elem_of_fmap. by exists (k, v).
Qed.

Lemma keyed_init : keyed init.
Proof. split; simpl; [constructor|]. by intros k lib ?%elem_of_nil. Qed.

Lemma keyed_call o s : keyed s → keyed (call o s).2.
Proof.
  intros [Hnd Hkey].
  destruct o as [libro|isbn|usuario|uid|isbn uid|isbn]; simpl.
  - unfold anadir_libro. destruct (od_mem _ _) eqn:Hm; [done|].
    apply od_mem_false in Hm. split; simpl.
    + rewrite od_set_fresh by done. unfold od_keys. rewrite fmap_app.
      apply NoDup_app. split_and!; [done| |apply NoDup_singleton].
      intros k Hk ->%list_elem_of_singleton. simpl in Hk.
      by apply od_get_None_iff in Hm.
    + intros k lib. rewrite od_set_fresh by done.
      rewrite elem_of_app, list_elem_of_singleton.
      intros [Hin|[= -> ->]]; [by apply Hkey|done].
  - unfold quitar_libro. destruct (prestamos s !! isbn); [done|].
    destruct (od_mem _ _); [|done]. split; simpl.
    + eapply sublist_NoDup; [exact Hnd|].
      unfold od_keys, od_del. apply fmap_sublist, sublist_filter.
    + intros k lib [_ Hin]%list_elem_of_filter. by apply Hkey.
  - unfold registrar_usuario. by case_decide.
  - unfold dar_de_baja_usuario. destruct (usuarios s !! uid) as [u|]; [|done].
    destruct (prestados u); [|done]. by case_decide.
  - unfold prestar_libro. destruct (od_mem _ _); [|done].
    destruct (usuarios s !! uid); [|done].
    by destruct (prestamos s !! isbn).
  - unfold devolver_libro. destruct (prestamos s !! isbn) as [uid|]; [|done].
    simpl. by destruct (usuarios s !! uid).
Qed.

Lemma reachable_keyed s : reachable s → keyed s.
Proof. induction 1; [apply keyed_init|by apply keyed_call]. Qed.

Lemma keyed_isbn_keys s : keyed s → isbn <$> od_values (libros s) = od_keys (libros s).
Proof.
  intros [_ Hkey]. unfold od_values, od_keys.
  induction (libros s) as [|[k lib] d IH]; [done|].
  rewrite !fmap_cons. simpl. f_equal.
  - apply Hkey. left.
  - apply IH. intros k' lib' Hin. apply Hkey. by right.
Qed.

(** X9. In every state the service can be in, no ISBN is stored twice and
    every book is stored under its own ISBN; so a search never returns two
    books with the same ISBN, and every book it returns is the one that the
    catalogue holds for its ISBN. *)
Theorem catalogue_keys_unique (s : t) :
  reachable s →
  NoDup (od_keys (libros s)) ∧
  (∀ k lib, (k, lib) ∈ libros s → isbn lib = k) ∧
  (∀ tit aut cat,
     NoDup (isbn <$> buscar_libros tit aut cat s) ∧
     ∀ lib, lib ∈ buscar_libros tit aut cat s →
            od_get (isbn lib) (libros s) = Some lib).
Proof.
  intros Hs. pose proof (reachable_keyed s Hs) as Hkeyed.
  destruct Hkeyed as [Hnd Hkey]. split_and!; [done..|].
  intros tit aut cat. split.
  - eapply sublist_NoDup; [exact Hnd|].
    rewrite <- (keyed_isbn_keys s) by done.
    unfold buscar_libros. apply fmap_sublist, sublist_filter.
  - intros lib. unfold buscar_libros.
    intros [_ Hin]%list_elem_of_filter.
    apply list_elem_of_fmap in Hin as ([k lib'] & -> & Hin). simpl.
    rewrite (Hkey _ _ Hin). by apply od_get_NoDup.
Qed.

Lemma catalogue_keys_unique_witness :
  od_keys (libros demo) = [isbn l1; isbn l2; isbn l3] ∧
  NoDup (isbn <$> buscar_libros None None (Some "n") demo).
Proof.
  split; [vm_compute; reflexivity|].
  apply (catalogue_keys_unique demo), BibliotecaFacts.reachable_run.
Defined.

(** X10. Referential integrity: in every state the service can be in, the
    id set holds exactly the ids of the registered users, and every loan is
    of a book of the catalogue to a registered user who has the ISBN on the
    list. *)
Theorem loans_refer_to_books_and_users (s : t) :
  reachable s →
  user_ids s = dom (usuarios s) ∧
  ∀ i h, prestamos s !! i = Some h →
    od_mem i (libros s) = true ∧
    ∃ u, usuarios s !! h = Some u ∧ i ∈ prestados u.
Proof.
  intros (Hids & Hloan & Hcat)%BibliotecaFacts.reachable_consistent.
  split; [done|]. intros i h Hi. split; [apply Hcat; eauto|by apply Hloan].
Qed.

Lemma loans_refer_to_books_and_users_witness :
  let s := run (demo_ops ++ [PrestarLibro (isbn l2) "U002";
                             DarDeBajaUsuario "U002";
                             QuitarLibro (isbn l2)]) init in
  prestamos s !! isbn l2 = Some "U002" ∧
  od_mem (isbn l2) (libros s) = true ∧
  ∃ u, usuarios s !! "U002" = Some u ∧ isbn l2 ∈ prestados u.
Proof.
  intros s.
  assert (prestamos s !! isbn l2 = Some "U002") as Hp by (vm_compute; reflexivity).
  split; [done|].
  apply (loans_refer_to_books_and_users s); [|done].
  apply BibliotecaFacts.reachable_run.
Defined.

(** X11. [libros_prestados_de] raises the not-found [KeyError] for an
    unknown user.  After calls that register users with the default empty
    list it drops nothing: it returns one book for every ISBN on the
    user's list, in the order of lending, and a book is returned exactly
    when the catalogue holds it under its ISBN and [prestamos] maps that
    ISBN to the user. *)
Theorem libros_prestados_de_spec (ops : list op) (uid : string) :
  Forall fresh_holder ops →
  (usuarios (run ops init) !! uid = None →
   libros_prestados_de uid (run ops init) = Raise (NotFound Holder)) ∧
  (∀ u, usuarios (run ops init) !! uid = Some u →
     ∃ l, libros_prestados_de uid (run ops init) = Return l ∧
          isbn <$> l = prestados u ∧
          ∀ lib, lib ∈ l ↔
                 od_get (isbn lib) (libros (run ops init)) = Some lib ∧
                 prestamos (run ops init) !! isbn lib = Some uid).
Proof.
  intros Hops. set (s := run ops init).
  destruct (BibliotecaFacts.held_agrees_run ops Hops) as [Hcons Hheld].
  fold s in Hcons, Hheld. destruct Hcons as (_ & _ & Hcat).
  assert (keyed s) as [Hnd Hkey]
    by apply reachable_keyed, BibliotecaFacts.reachable_run.
  split.
  - intros Hu. unfold libros_prestados_de. by rewrite Hu.
  - intros u Hu. unfold libros_prestados_de. rewrite Hu.
    destruct (Hheld uid u Hu) as [_ Hmem].
    assert (∀ i, i ∈ prestados u →
                 ∃ lib, od_get i (libros s) = Some lib ∧ isbn lib = i) as Hfound.
    { intros i Hi%Hmem.
      assert (od_mem i (libros s) = true) as Hm by (apply Hcat; eauto).
      apply od_mem_true in Hm as [lib Hlib]. exists lib. split; [done|].
      by apply Hkey, od_get_Some_elem. }
    eexists. split; [done|]. split.
    + clear Hmem. induction (prestados u) as [|i l IH]; [done|]. simpl.
      destruct (Hfound i) as (lib & Hlib & Hi); [left|].
      rewrite Hlib. rewrite fmap_cons, Hi. f_equal.
      apply IH. intros j Hj. apply Hfound. by right.
    + intros lib. rewrite list_elem_of_omap. split.
      * intros (i & Hi & Hlib). destruct (Hfound i Hi) as (lib' & Hlib' & <-).
        assert (lib' = lib) as -> by congruence.
        split; [done|]. by apply Hmem.
      * intros [Hlib Hp]. exists (isbn lib). split; [by apply Hmem|done].
Qed.

Lemma libros_prestados_de_spec_witness :
  let ops := (demo_ops ++ [PrestarLibro (isbn l3) "U001";
                           PrestarLibro (isbn l1) "U001"])%list in
  libros_prestados_de "U001" (run ops init) = Return [l3; l1] ∧
  libros_prestados_de "U007" (run ops init) = Raise (NotFound Holder).
Proof.
  intros ops. split; [vm_compute; reflexivity|].
  apply (libros_prestados_de_spec ops "U007").
  - unfold ops, demo_ops. simpl. repeat constructor.
  - vm_compute; reflexivity.
Defined.

(** X12. The counts of [resumen]: in every state the service can be in the
    number of users is the number of ids in the id set, and there are never
    more active loans than books. *)
Theorem resumen_counts (s : t) :
  reachable s →
  (resumen s).1.1 = length (libros s) ∧
  (resumen s).1.2 = size (user_ids s) ∧
  ((resumen s).2 ≤ (resumen s).1.1)%nat.
Proof.
  intros Hs.
  destruct (BibliotecaFacts.reachable_consistent s Hs) as (Hids & _ & Hcat).
  destruct (reachable_keyed s Hs) as [Hnd _].
  unfold resumen. simpl. split_and!; [done|by rewrite Hids, size_dom|].
  rewrite <- size_dom.
  transitivity (size (list_to_set (od_keys (libros s)) : gset string)).
  - apply subseteq_size. intros i [h Hi]%elem_of_dom.
    apply elem_of_list_to_set.
    destruct (od_get i (libros s)) as [lib|] eqn:Hget.
    + apply od_get_Some_elem in Hget. apply list_elem_of_fmap. by exists (i, lib).
    + apply od_mem_false in Hget. rewrite Hcat in Hget; [done|eauto].
  - rewrite size_list_to_set by done. unfold od_keys. by rewrite length_fmap.
Qed.

Lemma resumen_counts_witness :
  resumen (run (demo_ops ++ [PrestarLibro (isbn l3) "U001"]) init)
  = (3, 2, 1)%nat ∧
  ((resumen (run (demo_ops ++ [PrestarLibro (isbn l3) "U001"]) init)).2 ≤ 3)%nat.
Proof.
  split; [vm_compute; reflexivity|].
  pose proof (resumen_counts
                (run (demo_ops ++ [PrestarLibro (isbn l3) "U001"]) init)
                (BibliotecaFacts.reachable_run _)) as (H1 & _ & H3).
  rewrite H1 in H3. exact H3.
Defined.

Lemma py_list_remove_last x l :
  x ∉ l → py_list_remove x (l ++ [x]) = Some l.
Proof.
  induction l as [|y l IH]; simpl.
  - intros _. by rewrite decide_True.
  - intros [Hy Hl]%not_elem_of_cons. by rewrite decide_False, IH.
Qed.

(** X13. Lending a book and taking it back at once gives the state from
    before the loan, when the ISBN was not on the user's list; after calls
    that register users with the default empty list this holds for every
    book of the catalogue that is not on loan and every registered user. *)
Theorem prestar_devolver_roundtrip :
  (∀ s isbn uid u,
     od_mem isbn (libros s) = true → usuarios s !! uid = Some u →
     prestamos s !! isbn = None → isbn ∉ prestados u →
     ∃ s1, prestar_libro isbn uid s = (Return (), s1) ∧
           devolver_libro isbn s1 = (Return (), s)) ∧
  (∀ ops isbn uid,
     Forall fresh_holder ops →
     od_mem isbn (libros (run ops init)) = true →
     is_Some (usuarios (run ops init) !! uid) →
     prestamos (run ops init) !! isbn = None →
     ∃ s1, prestar_libro isbn uid (run ops init) = (Return (), s1) ∧
           devolver_libro isbn s1 = (Return (), run ops init)).
Proof.
  assert (∀ s isbn uid u,
     od_mem isbn (libros s) = true → usuarios s !! uid = Some u →
     prestamos s !! isbn = None → isbn ∉ prestados u →
     ∃ s1, prestar_libro isbn uid s = (Return (), s1) ∧
           devolver_libro isbn s1 = (Return (), s)) as Hround.
  { intros s isbn uid u Hcat Hu Hp Hnotin.
    unfold prestar_libro. rewrite Hcat, Hu, Hp. eexists. split; [done|].
    unfold devolver_libro. simpl. rewrite !lookup_insert_eq. simpl.
    f_equal. destruct s as [ls ids us ps]. simpl in *. f_equal.
    - rewrite insert_insert_eq. apply insert_id. rewrite Hu. f_equal.
      unfold remove_prestado, append_prestado. simpl.
      rewrite py_list_remove_last by done. by destruct u.
    - rewrite delete_insert_eq. by apply delete_id. }
  split; [exact Hround|].
  intros ops isbn uid Hops Hcat [u Hu] Hp.
  apply (Hround _ isbn uid u); [done..|].
  destruct (BibliotecaFacts.held_agrees_run ops Hops) as [_ Hheld].
  destruct (Hheld uid u Hu) as [_ Hmem].
  intros Hin%Hmem. congruence.
Qed.

Lemma prestar_devolver_roundtrip_witness :
  ∃ s1, prestar_libro (isbn l3) "U001" demo = (Return (), s1) ∧
        devolver_libro (isbn l3) s1 = (Return (), demo).
Proof.
  apply (proj2 prestar_devolver_roundtrip demo_ops (isbn l3) "U001").
  - unfold demo_ops. repeat constructor.
  - vm_compute; reflexivity.
  - exists u1. vm_compute; reflexivity.
  - vm_compute; reflexivity.
Defined.

(** X14. A loan blocks: after a successful [prestar_libro] the book is not
    available, lending it again to any registered user raises the
    already-loaned [ValueError] that names the holder, removing the book
    and deregistering the holder raise their [ValueError]s, and each of
    these calls leaves the state as the loan left it. *)
Theorem prestar_libro_blocks (s s1 : t) (isbn uid : string) :
  prestar_libro isbn uid s = (Return (), s1) →
  disponible isbn s1 = Return false ∧
  prestamos s1 !! isbn = Some uid ∧
  (∀ uid', is_Some (usuarios s1 !! uid') →
     prestar_libro isbn uid' s1 = (Raise (AlreadyLoaned uid), s1)) ∧
  prestar_libro isbn uid s1 = (Raise (AlreadyLoaned uid), s1) ∧
  quitar_libro isbn s1 = (Raise ItemLoaned, s1) ∧
  dar_de_baja_usuario uid s1 = (Raise HolderHasLoans, s1).
Proof.
  unfold prestar_libro at 1. destruct (od_mem isbn (libros s)) eqn:Hcat; [|done].
  destruct (usuarios s !! uid) as [u|] eqn:Hu; [|done].
  destruct (prestamos s !! isbn) eqn:Hp; [done|]. intros [= <-].
  assert (∀ uid', is_Some (usuarios (mk (libros s) (user_ids s)
             (<[uid:=append_prestado isbn u]> (usuarios s))
             (<[isbn:=uid]> (prestamos s))) !! uid') →
     prestar_libro isbn uid' (mk (libros s) (user_ids s)
             (<[uid:=append_prestado isbn u]> (usuarios s))
             (<[isbn:=uid]> (prestamos s)))
     = (Raise (AlreadyLoaned uid), mk (libros s) (user_ids s)
             (<[uid:=append_prestado isbn u]> (usuarios s))
             (<[isbn:=uid]> (prestamos s)))) as Hagain.
  { intros uid' [u' Hu']. unfold prestar_libro. simpl in *.
    by rewrite Hcat, Hu', lookup_insert_eq. }
  split_and!.
  - unfold disponible. simpl. rewrite Hcat, lookup_insert_eq.
    by rewrite bool_decide_eq_false_2.
  - simpl. apply lookup_insert_eq.
  - exact Hagain.
  - apply Hagain. simpl. rewrite lookup_insert_eq. eauto.
  - unfold quitar_libro. simpl. by rewrite lookup_insert_eq.
  - unfold dar_de_baja_usuario. simpl. rewrite lookup_insert_eq. simpl.
    by destruct (prestados u).
Qed.

Lemma prestar_libro_blocks_witness :
  let s1 := (prestar_libro (isbn l3) "U001" demo).2 in
  prestar_libro (isbn l3) "U002" s1 = (Raise (AlreadyLoaned "U001"), s1) ∧
  dar_de_baja_usuario "U001" s1 = (Raise HolderHasLoans, s1).
Proof.
  intros s1.
  destruct (prestar_libro_blocks demo s1 (isbn l3) "U001")
    as (_ & _ & Hagain & _ & _ & Hbaja); [vm_compute; reflexivity|].
  split; [|done]. apply Hagain. exists u2. vm_compute; reflexivity.
Defined.

Lemma filter_all {A} (P : A → Prop) `{∀ x, Decision (P x)} (l : list A) :
  (∀ x, P x) → filter P l = l.
Proof.
  intros HP. induction l as [|x l IH]; [done|].
  rewrite filter_cons, decide_True by done. by rewrite IH.
Qed.

Lemma rstrip_blank q : str_Forall (λ c, isspace c = true) q → rstrip q = "".
Proof.
  induction q as [|c q IH]; simpl; [done|].
  intros [Hc Hq]. by rewrite (IH Hq), Hc.
Qed.

Lemma criterion_empty field : criterion "" field = true.
Proof. reflexivity. Qed.

Lemma matches_split q1 q2 q3 lib :
  matches q1 q2 q3 lib
  = matches q1 "" "" lib && matches "" q2 "" lib && matches "" "" q3 lib.
Proof.
  unfold matches. rewrite !criterion_empty.
  by destruct (criterion q1 _), (criterion q2 _), (criterion q3 _).
Qed.

(** X15. The criteria of [buscar_libros] compose as an intersection: a book
    is found by title, author and category together exactly when it is found
    by each of them alone.  When every criterion is absent or blank the
    search returns the whole catalogue in its order; a criterion made of
    white space only is blank. *)
Theorem buscar_libros_compose :
  (∀ tit aut cat s lib,
     lib ∈ buscar_libros tit aut cat s ↔
     lib ∈ buscar_libros tit None None s ∧
     lib ∈ buscar_libros None aut None s ∧
     lib ∈ buscar_libros None None cat s) ∧
  (∀ tit aut cat s, query tit = "" → query aut = "" → query cat = "" →
     buscar_libros tit aut cat s = od_values (libros s)) ∧
  (∀ q, str_Forall (λ c, isspace c = true) q → query (Some q) = "").
Proof.
  split_and!.
  - intros tit aut cat s lib. unfold buscar_libros. cbv zeta.
    rewrite !list_elem_of_filter. cbv beta. change (query None) with "".
    rewrite (matches_split (query tit) (query aut) (query cat)).
    rewrite !andb_true_iff. tauto.
  - intros tit aut cat s H1 H2 H3. unfold buscar_libros. cbv zeta.
    rewrite H1, H2, H3. by apply filter_all.
  - intros q Hq. unfold query, strip. simpl. by rewrite rstrip_blank.
Qed.

Lemma buscar_libros_compose_witness :
  buscar_libros (Some "  ") None (Some "") demo = [l1; l2; l3] ∧
  (l3 ∈ buscar_libros (Some "code") (Some "martin") None demo).
Proof.
  split.
  - rewrite (proj1 (proj2 buscar_libros_compose)); vm_compute; reflexivity.
  - apply (proj1 buscar_libros_compose (Some "code") (Some "martin") None demo l3).
    split_and!; vm_compute; first [left | right; right; left].
Defined.

(** X16. Registering a user whose id is free and whose list is empty and
    deregistering that id at once gives the state from before the
    registration; in a state the service can be in, an id outside the id
    set is free.  Registering an id of the id set raises the duplicate
    [ValueError] and keeps the registered user. *)
Theorem registrar_dar_de_baja_roundtrip :
  (∀ s u, user_id u ∉ user_ids s → usuarios s !! user_id u = None →
     prestados u = [] →
     ∃ s1, registrar_usuario u s = (Return (), s1) ∧
           usuarios s1 !! user_id u = Some u ∧
           dar_de_baja_usuario (user_id u) s1 = (Return (), s)) ∧
  (∀ s u, reachable s → user_id u ∉ user_ids s → prestados u = [] →
     ∃ s1, registrar_usuario u s = (Return (), s1) ∧
           usuarios s1 !! user_id u = Some u ∧
           dar_de_baja_usuario (user_id u) s1 = (Return (), s)) ∧
  (∀ s u, user_id u ∈ user_ids s →
     registrar_usuario u s = (Raise (DuplicateKey (user_id u)), s)).
Proof.
  assert (∀ s u, user_id u ∉ user_ids s → usuarios s !! user_id u = None →
     prestados u = [] →
     ∃ s1, registrar_usuario u s = (Return (), s1) ∧
           usuarios s1 !! user_id u = Some u ∧
           dar_de_baja_usuario (user_id u) s1 = (Return (), s)) as Hround.
  { intros s u Hid Hu Hl. unfold registrar_usuario.
    rewrite decide_False by done. eexists. split; [done|]. simpl.
    split; [apply lookup_insert_eq|].
    unfold dar_de_baja_usuario. simpl. rewrite lookup_insert_eq, Hl.
    rewrite decide_True by set_solver. f_equal.
    destruct s as [ls ids us ps]. simpl in *. f_equal.
    - set_solver.
    - rewrite delete_insert_eq. by apply delete_id. }
  split_and!.
  - exact Hround.
  - intros s u Hs Hid Hl. apply Hround; [done| |done].
    destruct (BibliotecaFacts.reachable_consistent s Hs) as (Hids & _).
    rewrite Hids in Hid. by apply not_elem_of_dom.
  - intros s u Hid. unfold registrar_usuario. by rewrite decide_True.
Qed.

Lemma registrar_dar_de_baja_roundtrip_witness :
  let ana := mkUsuario "Ana" "U009" [] in
  ∃ s1, registrar_usuario ana demo = (Return (), s1) ∧
        usuarios s1 !! "U009" = Some ana ∧
        dar_de_baja_usuario "U009" s1 = (Return (), demo).
Proof.
  intros ana.
  apply (proj1 (proj2 registrar_dar_de_baja_roundtrip) demo ana).
  - apply BibliotecaFacts.reachable_run.
  - vm_compute. set_solver.
  - done.
Defined.

End BibliotecaMoreFacts.

(** ** Inventario: sequences of requests *)

Module InventarioOpsFacts.
Import Inventario InventarioUpdates InventarioOps.

Lemma run_ops_snoc ops o s : run (ops ++ [o]) s = call o (run ops s).
Proof. unfold run. by rewrite foldl_app. Qed.

Lemma call_keeps s o :
  index_ok s ∧ NoDup (od_keys (_productos s)) →
  index_ok (call o s) ∧ NoDup (od_keys (_productos (call o s))).
Proof.
  intros [Hok Hnd]. destruct o as [p|k|k n|k r]; simpl.
  - split; [by apply InventarioFacts.index_ok_agregar|].
    unfold agregar. destruct (od_mem _ _) eqn:Hm; [done|].
    apply od_mem_false in Hm. simpl. rewrite od_set_fresh by done.
    unfold od_keys. rewrite fmap_app. apply NoDup_app.
    split_and!; [done| |apply NoDup_singleton].
    intros k Hk ->%list_elem_of_singleton. simpl in Hk.
    by apply BibliotecaMoreFacts.od_get_None_iff in Hm.
  - split; [by apply InventarioFacts.index_ok_eliminar|].
    unfold eliminar. destruct (od_get _ _); [|done]. simpl.
    eapply sublist_NoDup; [exact Hnd|].
    unfold od_keys, od_del. apply fmap_sublist, sublist_filter.
  - unfold actualizar_cantidad. destruct (od_get _ _) as [p|] eqn:Hp; [|done].
    destruct (set_cantidad n); [|done]. simpl. split.
    + by apply (InventarioUpdatesFacts.index_ok_replace s k p).
    + by rewrite (InventarioUpdatesFacts.od_keys_set_present k p).
  - unfold actualizar_precio. destruct (od_get _ _) as [p|] eqn:Hp; [|done].
    destruct (set_precio r); [|done]. simpl. split.
    + by apply (InventarioUpdatesFacts.index_ok_replace s k p).
    + by rewrite (InventarioUpdatesFacts.od_keys_set_present k p).
Qed.

(** X17. After any sequence of [agregar], [eliminar], [actualizar_cantidad]
    and [actualizar_precio] calls on a new inventory, whether they return
    or raise, no id is stored twice, every product is stored under its own
    id, an id sits in a bucket of the index exactly when its product is
    stored and has the normalised name of that bucket, and no bucket is
    empty. *)
Theorem index_agrees_after_requests (ops : list op) :
  NoDup (od_keys (_productos (run ops init))) ∧
  (∀ k p, od_get k (_productos (run ops init)) = Some p → pid p = k) ∧
  (∀ key i,
     indexed (_index_nombre (run ops init)) key i ↔
     ∃ p, od_get i (_productos (run ops init)) = Some p ∧
          _norm (nombre p) = key) ∧
  (∀ key, _index_nombre (run ops init) !! key ≠ Some ∅).
Proof.
  assert (index_ok (run ops init) ∧ NoDup (od_keys (_productos (run ops init))))
    as [(H1 & H2 & H3) Hnd]; [|done].
  induction ops as [|o ops IH] using rev_ind.
  - split; [apply InventarioFacts.index_ok_init|constructor].
  - rewrite run_ops_snoc. by apply call_keeps.
Qed.

End InventarioOpsFacts.
